(** * A shallow embedding of the degiro client ([src/index.js])

    The client is one closure, [create], that captures the credentials and a
    mutable [session] object and exposes promise-returning operations built
    on [fetch].  The embedding follows that shape:

    - JSON payloads and the client's own object literals are values of
      [JSValue]; property reads, truthiness and string conversion follow
      ECMAScript for those values;
    - a thrown exception is a [JSError]; synchronous code that may throw
      returns a [Completion];
    - a promise is a function on the [World]: the [session] object, the
      requests sent so far, and the answers the transport will give, in the
      order the calls are issued.  [.then] is the bind of that monad. *)

From Stdlib Require Import String Ascii List ZArith Bool Lia DecimalString.
Import ListNotations.
Open Scope string_scope.
Open Scope Z_scope.

(** ** JavaScript values *)

Set Warnings "-register-all".

(** The values the client handles: what [JSON.parse] yields, and
    [undefined].  A number is either [JNum n], an integer that a double
    holds exactly and that [String(x)] prints in full (every integer up to
    2^53 in absolute value is one, none from 10^21 on is), or [JFrac], any
    other finite number, given by the text [String(x)] prints it as (a
    fraction, or an exponent form such as [1e+21]).  The client never
    computes with a number, it compares one with 0 ([status]), tests one for
    truth ([length]) and prints them.  A string is a sequence of bytes, the
    UTF-8 text. *)
Inductive JSValue : Type :=
| JUndefined
| JNull
| JBool (b : bool)
| JNum (n : Z)
| JFrac (text : string)
| JStr (s : string)
| JArr (items : list JSValue)
| JObj (fields : list (string * JSValue)).

(** What a [throw] or a rejected promise carries.  [Error m] is the object
    built by [Error(m)] / [new Error(m)], with its [message]; [TypeError] is
    raised by the runtime; [FetchError] is node-fetch's error, with what it
    reports as failed: the system error of a request that gets no response,
    or [invalid-json] (its [type]) for a body that [res.json()] cannot
    parse. *)
Inductive JSError : Type :=
| Error (message : string)
| TypeError
| FetchError (reason : string).

Inductive Completion (A : Type) : Type :=
| Normal (a : A)
| Throw (e : JSError).
Arguments Normal {A} a.
Arguments Throw {A} e.

Definition cbind {A B} (c : Completion A) (k : A -> Completion B) : Completion B :=
  match c with
  | Normal a => k a
  | Throw e => Throw e
  end.

Module JS.

(** The own properties of an object, in the order JavaScript enumerates
    them: integer-like keys first, then the other keys as they were
    inserted.  A read returns the first binding of the key. *)
Fixpoint lookup (k : string) (fields : list (string * JSValue)) : option JSValue :=
  match fields with
  | [] => None
  | (k', v) :: rest => if String.eqb k k' then Some v else lookup k rest
  end.

(** [o[k] = v] on an ordinary object, for a key other than [__proto__]
    (an assignment to that key reaches the prototype of [o], or does
    nothing, and binds no field).  A new key goes last, which is its place
    unless it is integer-like; the client reads the result by key only. *)
Fixpoint assign (k : string) (v : JSValue) (fields : list (string * JSValue))
  : list (string * JSValue) :=
  match fields with
  | [] => [(k, v)]
  | (k', v') :: rest =>
      if String.eqb k k' then (k', v) :: rest else (k', v') :: assign k v rest
  end.

Definition keys (fields : list (string * JSValue)) : list string := map fst fields.

(** [String(n)] for an integer [n] of [JNum]: its decimal digits. *)
Definition decimal (n : Z) : string := NilZero.string_of_int (Z.to_int n).

Fixpoint join (sep : string) (parts : list string) : string :=
  match parts with
  | [] => ""
  | [p] => p
  | p :: rest => p ++ sep ++ join sep rest
  end.

(** The text of a value that has one: what ECMAScript's [ToString] returns
    when it returns (see [toText] below, and [toText_ToString]).  The
    template literals of the client print the session's token and account
    with it. *)
Fixpoint ToString (v : JSValue) : string :=
  match v with
  | JUndefined => "undefined"
  | JNull => "null"
  | JBool true => "true"
  | JBool false => "false"
  | JNum n => decimal n
  | JFrac text => text
  | JStr s => s
  | JArr items =>
      join "," (map (fun x => match x with
                              | JUndefined | JNull => ""
                              | _ => ToString x
                              end) items)
  | JObj _ => "[object Object]"
  end.

(** ECMAScript [ToBoolean]. *)
Definition truthy (v : JSValue) : bool :=
  match v with
  | JUndefined | JNull => false
  | JBool b => b
  | JNum n => negb (n =? 0)
  | JFrac _ => true
  | JStr s => negb (String.eqb s "")
  | JArr _ | JObj _ => true
  end.

Definition isArray (v : JSValue) : bool :=
  match v with
  | JArr _ => true
  | _ => false
  end.

Definition field (k : string) (fields : list (string * JSValue)) : JSValue :=
  match lookup k fields with
  | Some x => x
  | None => JUndefined
  end.

(** [v.k] for the property names the client reads: none of them is an
    array index or a name found on a built-in prototype, so on a value
    that is not an object the read yields [undefined], except [length]
    (of a string: the number of bytes, its length when the text is
    ASCII). *)
Definition get (v : JSValue) (k : string) : Completion JSValue :=
  match v with
  | JUndefined | JNull => Throw TypeError
  | JObj fields =>
      Normal (field k fields)
  | JArr items =>
      Normal (if String.eqb k "length" then JNum (Z.of_nat (List.length items))
              else JUndefined)
  | JStr s =>
      Normal (if String.eqb k "length" then JNum (Z.of_nat (String.length s))
              else JUndefined)
  | JBool _ | JNum _ | JFrac _ => Normal JUndefined
  end.

(** [v[i]] for an index [i]. *)
Definition item (v : JSValue) (i : nat) : Completion JSValue :=
  match v with
  | JUndefined | JNull => Throw TypeError
  | JArr items => Normal (nth i items JUndefined)
  | JStr s => Normal (match String.get i s with
                      | Some c => JStr (String c EmptyString)
                      | None => JUndefined
                      end)
  | _ => Normal JUndefined
  end.

(** [v === n] for a number literal [n]. *)
Definition isNumber (v : JSValue) (n : Z) : bool :=
  match v with
  | JNum m => m =? n
  | _ => false
  end.

(** A destructured parameter with a default, [{k = d}]: the default is
    taken when the property reads as [undefined] (and not for [null]). *)
Definition orDefault (v d : JSValue) : JSValue :=
  match v with
  | JUndefined => d
  | _ => v
  end.

(** [a.map(f)] where [f] may throw; a receiver that is not an array has
    no callable [map]. *)
Fixpoint mapM {A B} (f : A -> Completion B) (l : list A) : Completion (list B) :=
  match l with
  | [] => Normal []
  | x :: rest =>
      cbind (f x) (fun y => cbind (mapM f rest) (fun ys => Normal (y :: ys)))
  end.

(** ECMAScript [ToString], as applied by template literals, by property
    keys and by the [Error] constructor.  On an object it asks for a
    primitive: an own [toString] field of a JSON object is no function, the
    inherited [valueOf] gives the object back, and the conversion throws a
    [TypeError]; without such a field [Object.prototype.toString] answers.
    An array joins the texts of its items, and throws when one of them
    does. *)
Fixpoint toText (v : JSValue) : Completion string :=
  match v with
  | JUndefined => Normal "undefined"
  | JNull => Normal "null"
  | JBool true => Normal "true"
  | JBool false => Normal "false"
  | JNum n => Normal (decimal n)
  | JFrac text => Normal text
  | JStr s => Normal s
  | JArr items =>
      cbind ((fix each (l : list JSValue) : Completion (list string) :=
                match l with
                | [] => Normal []
                | x :: rest =>
                    cbind (match x with
                           | JUndefined | JNull => Normal ""
                           | _ => toText x
                           end)
                          (fun p => cbind (each rest) (fun ps => Normal (p :: ps)))
                end) items)
            (fun parts => Normal (join "," parts))
  | JObj fields =>
      match lookup "toString" fields with
      | Some _ => Throw TypeError
      | None => Normal "[object Object]"
      end
  end.

(** The values [ToString] converts without throwing. *)
Definition printable (v : JSValue) : bool :=
  match toText v with
  | Normal _ => true
  | Throw _ => false
  end.

(** What [throw Error(m)] throws: the error built, whose message is
    [ToString m], and empty when [m] is [undefined]; or the [TypeError]
    of a message that cannot be converted. *)
Definition mkError (m : JSValue) : JSError :=
  match m with
  | JUndefined => Error ""
  | _ => match toText m with
         | Normal text => Error text
         | Throw e => e
         end
  end.

Definition arrayMap {B} (v : JSValue) (f : JSValue -> Completion B)
  : Completion (list B) :=
  match v with
  | JArr items => mapM f items
  | _ => Throw TypeError
  end.

End JS.

(** ** lodash *)

Module Lodash.

(** [isNil(v)]: [v == null]. *)
Definition isNil (v : JSValue) : bool :=
  match v with
  | JUndefined | JNull => true
  | _ => false
  end.

(** [omitBy(object, predicate)]: the properties for which the predicate
    is falsy. *)
Definition omitBy (fields : list (string * JSValue)) (p : JSValue -> bool)
  : list (string * JSValue) :=
  filter (fun kv => negb (p (snd kv))) fields.

(** [omit(object, paths)] for plain property names. *)
Definition omit (fields : list (string * JSValue)) (paths : list string)
  : list (string * JSValue) :=
  filter (fun kv => negb (existsb (String.eqb (fst kv)) paths)) fields.

(** [fromPairs(pairs)]: [result[pair[0]] = pair[1]] for each pair in turn,
    starting from the empty object.  The key is converted by [ToString],
    which may throw.  (A key [__proto__] would reach the prototype of the
    result instead of binding a field: see [JS.assign].) *)
Definition fromPairs (pairs : list (JSValue * JSValue))
  : Completion (list (string * JSValue)) :=
  fold_left (fun result pair =>
               cbind result (fun fields =>
               cbind (JS.toText (fst pair)) (fun key =>
               Normal (JS.assign key (snd pair) fields))))
            pairs (Normal []).

End Lodash.

(** ** Node's [querystring] *)

Module Querystring.

Definition hexDigit (n : nat) : ascii :=
  nth n (list_ascii_of_string "0123456789ABCDEF") "0"%char.

(** The characters [querystring.escape] leaves alone:
    [A-Z a-z 0-9 - _ . ! ~ * ' ( )]. *)
Definition unreserved (c : ascii) : bool :=
  let n := nat_of_ascii c in
  (((65 <=? n) && (n <=? 90)) || ((97 <=? n) && (n <=? 122))
   || ((48 <=? n) && (n <=? 57))
   || existsb (Ascii.eqb c) (list_ascii_of_string "-_.!~*'()"))%nat%bool.

(** [querystring.escape]: percent-encoding of the bytes of the string. *)
Fixpoint escape (s : string) : string :=
  match s with
  | EmptyString => EmptyString
  | String c rest =>
      if unreserved c then String c (escape rest)
      else let n := nat_of_ascii c in
           String "%" (String (hexDigit (n / 16)) (String (hexDigit (n mod 16))
                                                          (escape rest)))
  end.

Definition stringifyPrimitive (v : JSValue) : string :=
  match v with
  | JStr s => s
  | JNum n => JS.decimal n
  | JFrac text => text
  | JBool true => "true"
  | JBool false => "false"
  | _ => ""
  end.

(** The [key=value] pairs of one property: one per item for an array
    value, one otherwise. *)
Definition pairsOf (kv : string * JSValue) : list string :=
  let ks := escape (fst kv) ++ "=" in
  match snd kv with
  | JArr items => map (fun x => ks ++ escape (stringifyPrimitive x)) items
  | v => [ks ++ escape (stringifyPrimitive v)]
  end.

(** The own enumerable properties of an array: its items under their
    indices. *)
Fixpoint indexed (i : nat) (items : list JSValue) : list (string * JSValue) :=
  match items with
  | [] => []
  | x :: rest => (JS.decimal (Z.of_nat i), x) :: indexed (S i) rest
  end.

(** [querystring.stringify(obj)] with the default separators: the pairs
    of the keys of an object, an array being the object of its indices;
    the empty string for anything else. *)
Definition stringify (obj : JSValue) : string :=
  match obj with
  | JObj fields => JS.join "&" (flat_map pairsOf fields)
  | JArr items => JS.join "&" (flat_map pairsOf (indexed 0 items))
  | _ => ""
  end.

(** Reading a query string back, as a server does: the parameters are the
    pieces between [&], and the name of a parameter is what precedes its
    first [=]. *)
Fixpoint splitOn (sep : ascii) (s : string) : list string :=
  match s with
  | EmptyString => [EmptyString]
  | String c rest =>
      if Ascii.eqb c sep then EmptyString :: splitOn sep rest
      else match splitOn sep rest with
           | [] => [String c EmptyString]
           | p :: ps => String c p :: ps
           end
  end.

Definition parameters (query : string) : list string := splitOn "&" query.

Definition nameOf (parameter : string) : string :=
  match splitOn "=" parameter with
  | [] => EmptyString
  | n :: _ => n
  end.

Definition names (query : string) : list string := map nameOf (parameters query).

End Querystring.

(** ** The transport and the promise monad *)

Inductive Method : Type := GET | POST.

(** The arguments of one [fetch] call. *)
Record Request : Type := mkRequest {
  url : string;
  method : Method;
  headers : list (string * string);
  body : option string;
  redirect : string
}.

(** What the client reads of a response: [res.headers.get('set-cookie')]
    ([None] for [null]) and [res.json()] ([None] when the body is not JSON,
    which rejects with node-fetch's [FetchError] of type [invalid-json]). *)
Record Response : Type := mkResponse {
  setCookie : option string;
  json : option JSValue
}.

Inductive FetchResult : Type :=
| Answer (res : Response)
| Failure (reason : string).

(** The [session] object of the closure. *)
Record Session : Type := mkSession {
  id : JSValue;
  account : JSValue
}.

(** What a promise of the client can read and change: the [session]
    object, the requests [fetch] has sent so far, the answers the transport
    is going to give, in the order the calls are issued, and the lines
    written to the console. *)
Record World : Type := mkWorld {
  session : Session;
  sent : list Request;
  answers : list FetchResult;
  console : list (list JSValue)
}.

(** How a promise ends: fulfilled, rejected, or never settled (a [fetch]
    that gets no answer). *)
Inductive Outcome (A : Type) : Type :=
| Resolved (a : A)
| Rejected (e : JSError)
| Pending.
Arguments Resolved {A} a.
Arguments Rejected {A} e.
Arguments Pending {A}.

(** A function that throws before it returns its promise (a parameter
    that cannot be destructured) is the promise rejected with what it
    throws. *)
Definition Promise (A : Type) : Type := World -> Outcome A * World.

Definition resolve {A} (a : A) : Promise A := fun w => (Resolved a, w).

Definition reject {A} (e : JSError) : Promise A := fun w => (Rejected e, w).

(** [p.then(k)] *)
Definition andThen {A B} (p : Promise A) (k : A -> Promise B) : Promise B :=
  fun w =>
    match p w with
    | (Resolved a, w') => k a w'
    | (Rejected e, w') => (Rejected e, w')
    | (Pending, w') => (Pending, w')
    end.

(** A callback that returns or throws without touching the world. *)
Definition settle {A} (c : Completion A) : Promise A :=
  match c with
  | Normal a => resolve a
  | Throw e => reject e
  end.

Declare Scope promise_scope.
Delimit Scope promise_scope with promise.
Notation "x <- p ;; k" := (andThen p (fun x => k))
  (at level 61, p at next level, right associativity) : promise_scope.
Notation "p ;;; k" := (andThen p (fun _ => k))
  (at level 61, right associativity) : promise_scope.
Notation "'let?' x := c 'in' k" := (cbind c (fun x => k))
  (at level 61, x name, c at next level, right associativity).

Definition getSession : Promise Session := fun w => (Resolved (session w), w).

Definition setSession (s : Session) : Promise unit :=
  fun w => (Resolved tt, mkWorld s (sent w) (answers w) (console w)).

(** [fetch(url, init)]: the request goes out and the next answer of the
    transport settles the promise; with no answer left it stays pending. *)
Definition fetch (req : Request) : Promise Response :=
  fun w =>
    match answers w with
    | [] => (Pending, mkWorld (session w) (sent w ++ [req]) [] (console w))
    | Answer res :: rest =>
        (Resolved res, mkWorld (session w) (sent w ++ [req]) rest (console w))
    | Failure reason :: rest =>
        (Rejected (FetchError reason),
         mkWorld (session w) (sent w ++ [req]) rest (console w))
    end.

(** [res => res.json()] *)
Definition resJson (res : Response) : Promise JSValue :=
  match json res with
  | Some v => resolve v
  | None => reject (FetchError "invalid-json")
  end.

(** [fetch(url)] with no [init]. *)
Definition getRequest (u : string) : Request := mkRequest u GET [] None "follow".

Definition fetchGet (u : string) : Promise Response := fetch (getRequest u).

(** ** The client *)

(** The libraries the client calls into and that no property below
    depends on: [JSON.stringify] and the [parse] function of the [cookie]
    package (the fields of the object it returns). *)
Class Collaborators : Type := {
  JSON_stringify : JSValue -> string;
  parseCookies : string -> list (string * JSValue)
}.

(** The entries of [./constants] that [index.js] reads. *)
Class Constants : Type := {
  Actions_buy : JSValue;
  Actions_sell : JSValue;
  ProductTypes_all : JSValue;
  ProductTypes_shares : JSValue;
  TimeTypes_day : JSValue
}.

Definition BASE_URL : string := "https://trader.degiro.nl".

(** What the closure of [create] captures besides [session]. *)
Record Client : Type := mkClient {
  username : JSValue;
  password : JSValue;
  debug : JSValue;
  initialSession : Session
}.

(** [create(options)], with [env] for [process.env].  The parameter
    defaults to [{}] and each field to its environment variable. *)
Definition create (env : list (string * JSValue)) (options : JSValue)
  : Completion Client :=
  let options := JS.orDefault options (JObj []) in
  let? username := JS.get options "username" in
  let? password := JS.get options "password" in
  let? sessionId := JS.get options "sessionId" in
  let? account := JS.get options "account" in
  let? debug := JS.get options "debug" in
  Normal (mkClient (JS.orDefault username (JS.field "DEGIRO_USER" env))
                   (JS.orDefault password (JS.field "DEGIRO_PASS" env))
                   (JS.orDefault debug (JBool false))
                   (mkSession (JS.orDefault sessionId (JS.field "DEGIRO_SID" env))
                              (JS.orDefault account (JS.field "DEGIRO_ACCOUNT" env)))).

(** The world a fresh client starts in, given what the transport will
    answer. *)
Definition boot (c : Client) (script : list FetchResult) : World :=
  mkWorld (initialSession c) [] script [].

Section Client.

Context {lib : Collaborators} {constants : Constants}.
Variable self : Client.

Local Open Scope promise_scope.

(** [log(...s)]: [console.log] when [debug] is set. *)
Definition written (s : list JSValue) (w : World) : World :=
  mkWorld (session w) (sent w) (answers w)
          (if JS.truthy (debug self) then console w ++ [s] else console w).

Definition log (s : list JSValue) : Promise unit :=
  fun w => (Resolved tt, written s w).

Definition checkSuccess (res : JSValue) : Completion JSValue :=
  let? status := JS.get res "status" in
  if negb (JS.isNumber status 0) then
    let? message := JS.get res "message" in
    Throw (JS.mkError message)
  else Normal res.

(** The template literals of the operations print the token and the
    account of the session, and [confirmOrder] the confirmation id, with
    [ToString].  On a value that [ToString] cannot convert the literal
    throws before the request is built; the operations below are those of
    a session, and of a confirmation id, that can be printed
    ([JS.printable]), and they print them with [JS.ToString]. *)
Definition getData (options : JSValue) : Promise JSValue :=
  let options := JS.orDefault options (JObj []) in
  let params := Querystring.stringify options in
  log [JStr "getData"; JStr params] ;;;
  s <- getSession ;;
  res <- fetchGet (BASE_URL ++ "/trading/secure/v5/update/" ++ JS.ToString (account s)
                   ++ ";jsessionid=" ++ JS.ToString (id s) ++ "?" ++ params) ;;
  resJson res.

Definition badResult {A} (data : JSValue) : Completion A :=
  Throw (JS.mkError (JStr ("Bad result: " ++ JSON_stringify data))).

(** [({value}) => omit(fromPairs(value.map(({name, value}) => [name, value])),
    ['handling', 'currencyCode'])] *)
Definition cashFundsEntry (entry : JSValue) : Completion JSValue :=
  let? value := JS.get entry "value" in
  let? pairs := JS.arrayMap value (fun pair =>
                  let? name := JS.get pair "name" in
                  let? value := JS.get pair "value" in
                  Normal (name, value)) in
  let? fields := Lodash.fromPairs pairs in
  Normal (JObj (Lodash.omit fields ["handling"; "currencyCode"])).

(** The callback of [getCashFunds]. *)
Definition cashFundsOf (data : JSValue) : Completion JSValue :=
  let? cashFunds := JS.get data "cashFunds" in
  if JS.truthy cashFunds then
    let? value := JS.get cashFunds "value" in
    if JS.isArray value then
      let? entries := JS.arrayMap value cashFundsEntry in
      Normal (JObj [("cashFunds", JArr entries)])
    else badResult data
  else badResult data.

Definition getCashFunds : Promise JSValue :=
  data <- getData (JObj [("cashFunds", JNum 0)]) ;;
  settle (cashFundsOf data).

(** The callback of [getPortfolio]. *)
Definition portfolioOf (data : JSValue) : Completion JSValue :=
  let? portfolio := JS.get data "portfolio" in
  if JS.truthy portfolio then
    let? value := JS.get portfolio "value" in
    if JS.isArray value then Normal (JObj [("portfolio", value)])
    else badResult data
  else badResult data.

Definition getPortfolio : Promise JSValue :=
  data <- getData (JObj [("portfolio", JNum 0)]) ;;
  settle (portfolioOf data).

Definition updateClientInfo : Promise unit :=
  log [JStr "updateClientInfo"] ;;;
  s <- getSession ;;
  res <- fetchGet (BASE_URL ++ "/pa/secure/client?sessionId=" ++ JS.ToString (id s)) ;;
  data <- resJson res ;;
  intAccount <- settle (JS.get data "intAccount") ;;
  s <- getSession ;;
  setSession (mkSession (id s) intAccount).

Definition loginRequest : Request :=
  mkRequest (BASE_URL ++ "/login/securityCheck") POST
            [("Content-Type", "application/x-www-form-urlencoded")]
            (Some (Querystring.stringify
                     (JObj [("j_username", username self);
                            ("j_password", password self)])))
            "manual".

(** [res.headers.get('set-cookie') || ''] *)
Definition setCookieOrEmpty (res : Response) : string :=
  match setCookie res with
  | Some h => h
  | None => ""
  end.

Definition login : Promise Session :=
  log [JStr "login"; username self; JStr "********"] ;;;
  res <- fetch loginRequest ;;
  (let cookies := parseCookies (setCookieOrEmpty res) in
   s <- getSession ;;
   setSession (mkSession (JS.field "JSESSIONID" cookies) (account s)) ;;;
   s <- getSession ;;
   if negb (JS.truthy (id s)) then reject (JS.mkError (JStr "Login error"))
   else resolve tt) ;;;
  updateClientInfo ;;;
  getSession.

(** The [options] object of [searchProduct], from its destructured and
    defaulted parameter. *)
Definition searchOptions (args : JSValue) : Completion (list (string * JSValue)) :=
  let? searchText := JS.get args "text" in
  let? productType := JS.get args "productType" in
  let? sortColumn := JS.get args "sortColumn" in
  let? sortType := JS.get args "sortType" in
  let? limit := JS.get args "limit" in
  let? offset := JS.get args "offset" in
  Normal [("searchText", searchText);
          ("productType", JS.orDefault productType ProductTypes_all);
          ("sortColumn", sortColumn);
          ("sortType", sortType);
          ("limit", JS.orDefault limit (JNum 7));
          ("offset", JS.orDefault offset (JNum 0))].

(** What [searchProduct] hands to [querystring.stringify]. *)
Definition searchQuery (args : JSValue) : Completion (list (string * JSValue)) :=
  let? options := searchOptions args in
  Normal (Lodash.omitBy options Lodash.isNil).

Definition searchParams (args : JSValue) : Completion string :=
  let? query := searchQuery args in
  Normal (Querystring.stringify (JObj query)).

Definition searchUrl (s : Session) (params : string) : string :=
  BASE_URL ++ "/product_search/secure/v4/product/lookup?intAccount="
  ++ JS.ToString (account s) ++ "&sessionId=" ++ JS.ToString (id s) ++ "&" ++ params.

Definition searchProduct (args : JSValue) : Promise JSValue :=
  params <- settle (searchParams args) ;;
  log [JStr "searchProduct"; JStr params] ;;;
  s <- getSession ;;
  res <- fetchGet (searchUrl s params) ;;
  resJson res.

Definition jsonPost (u : string) (payload : JSValue) : Request :=
  mkRequest u POST [("Content-Type", "application/json;charset=UTF-8")]
            (Some (JSON_stringify payload)) "follow".

Definition checkOrderUrl (s : Session) : string :=
  BASE_URL ++ "/trading/secure/v5/checkOrder;jsessionid=" ++ JS.ToString (id s)
  ++ "?intAccount=" ++ JS.ToString (account s) ++ "&sessionId=" ++ JS.ToString (id s).

Definition checkOrder (order : JSValue) : Promise JSValue :=
  fields <- settle (let? buysell := JS.get order "buysell" in
                    let? orderType := JS.get order "orderType" in
                    let? productId := JS.get order "productId" in
                    let? size := JS.get order "size" in
                    let? timeType := JS.get order "timeType" in
                    let? price := JS.get order "price" in
                    let? stopPrice := JS.get order "stopPrice" in
                    Normal [("buysell", buysell); ("orderType", orderType);
                            ("productId", productId); ("size", size);
                            ("timeType", timeType); ("price", price);
                            ("stopPrice", stopPrice)]) ;;
  log [JStr "checkOrder"; JObj fields] ;;;
  s <- getSession ;;
  res <- fetch (jsonPost (checkOrderUrl s) order) ;;
  data <- resJson res ;;
  json <- settle (checkSuccess data) ;;
  confirmationId <- settle (JS.get json "confirmationId") ;;
  resolve (JObj [("order", order); ("confirmationId", confirmationId)]).

Definition confirmOrderUrl (s : Session) (confirmationId : JSValue) : string :=
  BASE_URL ++ "/trading/secure/v5/order/" ++ JS.ToString confirmationId
  ++ ";jsessionid=" ++ JS.ToString (id s)
  ++ "?intAccount=" ++ JS.ToString (account s) ++ "&sessionId=" ++ JS.ToString (id s).

Definition confirmOrder (token : JSValue) : Promise JSValue :=
  order <- settle (JS.get token "order") ;;
  confirmationId <- settle (JS.get token "confirmationId") ;;
  log [JStr "confirmOrder"; JObj [("order", order); ("confirmationId", confirmationId)]] ;;;
  s <- getSession ;;
  res <- fetch (jsonPost (confirmOrderUrl s confirmationId) order) ;;
  data <- resJson res ;;
  json <- settle (checkSuccess data) ;;
  orderId <- settle (JS.get json "orderId") ;;
  resolve (JObj [("orderId", orderId)]).

Definition returnFirstProductResult (result : JSValue) : Completion JSValue :=
  let? data := JS.get result "data" in
  if JS.isArray data then
    let? length := JS.get data "length" in
    if JS.truthy length then JS.item data 0
    else Throw (JS.mkError (JStr "Product not found"))
  else Throw (JS.mkError (JStr "Product not found")).

(** The order object literal of [buy] and [sell]. *)
Definition orderOf (buysell orderType productId size timeType price stopPrice : JSValue)
  : JSValue :=
  JObj [("buysell", buysell); ("orderType", orderType); ("productId", productId);
        ("size", size); ("timeType", timeType); ("price", price);
        ("stopPrice", stopPrice)].

Definition buy (args : JSValue) : Promise JSValue :=
  orderType <- settle (JS.get args "orderType") ;;
  productSymbol <- settle (JS.get args "productSymbol") ;;
  productType <- settle (JS.get args "productType") ;;
  size <- settle (JS.get args "size") ;;
  timeType <- settle (JS.get args "timeType") ;;
  price <- settle (JS.get args "price") ;;
  stopPrice <- settle (JS.get args "stopPrice") ;;
  let productType := JS.orDefault productType ProductTypes_shares in
  let timeType := JS.orDefault timeType TimeTypes_day in
  result <- searchProduct (JObj [("text", productSymbol); ("productType", productType);
                                 ("limit", JNum 1)]) ;;
  product <- settle (returnFirstProductResult result) ;;
  id <- settle (JS.get product "id") ;;
  token <- checkOrder (orderOf Actions_buy orderType id size timeType price stopPrice) ;;
  confirmOrder token.

Definition sell (args : JSValue) : Promise JSValue :=
  orderType <- settle (JS.get args "orderType") ;;
  productSymbol <- settle (JS.get args "productSymbol") ;;
  productType <- settle (JS.get args "productType") ;;
  size <- settle (JS.get args "size") ;;
  timeType <- settle (JS.get args "timeType") ;;
  price <- settle (JS.get args "price") ;;
  stopPrice <- settle (JS.get args "stopPrice") ;;
  let productType := JS.orDefault productType ProductTypes_shares in
  let timeType := JS.orDefault timeType TimeTypes_day in
  result <- searchProduct (JObj [("text", productSymbol); ("productType", productType);
                                 ("limit", JNum 1)]) ;;
  product <- settle (returnFirstProductResult result) ;;
  id <- settle (JS.get product "id") ;;
  token <- checkOrder (orderOf Actions_sell orderType id size timeType price stopPrice) ;;
  confirmOrder token.

End Client.

(** ** The order workflow as one state machine

    The workflow as the specification describes it, to compare [buy] and
    [sell] with: [Searching -> Checking -> Confirming -> Done], with a
    rejected promise for [Failed]; the direction of the order is its only
    parameter. *)

Inductive Stage : Type :=
| Searching
| Checking (product : JSValue)
| Confirming (token : JSValue)
| Done (result : JSValue).

Section Workflow.

Context {lib : Collaborators} {constants : Constants}.
Variable self : Client.
Variable action : JSValue.
Variable args : list (string * JSValue).

Local Open Scope promise_scope.

(** The order request built from the caller's arguments and the resolved
    product id. *)
Definition workflowOrder (productId : JSValue) : JSValue :=
  JObj [("buysell", action);
        ("orderType", JS.field "orderType" args);
        ("productId", productId);
        ("size", JS.field "size" args);
        ("timeType", JS.orDefault (JS.field "timeType" args) TimeTypes_day);
        ("price", JS.field "price" args);
        ("stopPrice", JS.field "stopPrice" args)].

(** The search issued for the caller's product symbol. *)
Definition workflowSearch : JSValue :=
  JObj [("text", JS.field "productSymbol" args);
        ("productType", JS.orDefault (JS.field "productType" args) ProductTypes_shares);
        ("limit", JNum 1)].

(** The promise chain that [buy] and [sell] both spell out. *)
Definition chain : Promise JSValue :=
  result <- searchProduct self workflowSearch ;;
  product <- settle (returnFirstProductResult result) ;;
  productId <- settle (JS.get product "id") ;;
  token <- checkOrder self (workflowOrder productId) ;;
  confirmOrder self token.

(** One transition: the work of a stage, resolving to the next stage or
    rejecting. *)
Definition step (stage : Stage) : Promise Stage :=
  match stage with
  | Searching =>
      result <- searchProduct self workflowSearch ;;
      product <- settle (returnFirstProductResult result) ;;
      resolve (Checking product)
  | Checking product =>
      productId <- settle (JS.get product "id") ;;
      token <- checkOrder self (workflowOrder productId) ;;
      resolve (Confirming token)
  | Confirming token =>
      result <- confirmOrder self token ;;
      resolve (Done result)
  | Done result => resolve (Done result)
  end.

(** Three transitions from [Searching]; they end in [Done] when none
    rejects. *)
Definition orderWorkflow : Promise JSValue :=
  checking <- step Searching ;;
  confirming <- step checking ;;
  done <- step confirming ;;
  match done with
  | Done result => resolve result
  | _ => reject TypeError
  end.

End Workflow.

(** [s.includes(c)] *)
Fixpoint contains (c : ascii) (s : string) : bool :=
  match s with
  | EmptyString => false
  | String a rest => Ascii.eqb a c || contains c rest
  end.

(** ** Describing a run *)

(** What the next answer of the transport makes of [fetch(...).then(res =>
    res.json())]. *)
Definition received (script : list FetchResult) : Outcome JSValue :=
  match script with
  | [] => Pending
  | Answer res :: _ =>
      match json res with
      | Some v => Resolved v
      | None => Rejected (FetchError "invalid-json")
      end
  | Failure reason :: _ => Rejected (FetchError reason)
  end.

(** [runs p w out s requests rest]: started in [w], the promise [p] settles
    as [out] (or stays pending), leaves the session [s], has sent
    [requests] and has left the answers [rest] unread.  The console is not
    part of the description. *)
Definition runs {A} (p : Promise A) (w : World) (out : Outcome A)
           (s : Session) (requests : list Request) (rest : list FetchResult) : Prop :=
  fst (p w) = out
  /\ session (snd (p w)) = s
  /\ sent (snd (p w)) = (sent w ++ requests)%list
  /\ answers (snd (p w)) = rest.

(** The [.then] callbacks of [checkOrder] and of [confirmOrder], applied to
    a decoded response. *)
Definition checked (order data : JSValue) : Outcome JSValue :=
  match checkSuccess data with
  | Throw e => Rejected e
  | Normal ok =>
      match JS.get ok "confirmationId" with
      | Throw e => Rejected e
      | Normal confirmationId =>
          Resolved (JObj [("order", order); ("confirmationId", confirmationId)])
      end
  end.

Definition confirmed (data : JSValue) : Outcome JSValue :=
  match checkSuccess data with
  | Throw e => Rejected e
  | Normal ok =>
      match JS.get ok "orderId" with
      | Throw e => Rejected e
      | Normal orderId => Resolved (JObj [("orderId", orderId)])
      end
  end.

(** The outcome of a callback run on a fulfilled outcome. *)
Definition after {A B} (o : Outcome A) (k : A -> Outcome B) : Outcome B :=
  match o with
  | Resolved a => k a
  | Rejected e => Rejected e
  | Pending => Pending
  end.



(** The profile request of [updateClientInfo], for the token just stored. *)
Definition clientInfoRequest (token : JSValue) : Request :=
  getRequest (BASE_URL ++ "/pa/secure/client?sessionId=" ++ JS.ToString token).

(** ** Comparing the two directions of an order *)

Section Directions.

Context {lib : Collaborators} {constants : Constants}.
Variable fields : list (string * JSValue).
Variables a b : JSValue.

(** Two requests that differ at most in the direction of the order in
    their body. *)
Definition sameUpToAction (r1 r2 : Request) : Prop :=
  url r1 = url r2 /\ method r1 = method r2 /\ headers r1 = headers r2
  /\ redirect r1 = redirect r2
  /\ (body r1 = body r2
      \/ exists productId,
           body r1 = Some (JSON_stringify (workflowOrder a fields productId))
           /\ body r2 = Some (JSON_stringify (workflowOrder b fields productId))).

(** Two worlds with the same session and pending answers, whose requests
    are pairwise the same up to the direction. *)
Definition similar (w1 w2 : World) : Prop :=
  session w1 = session w2 /\ answers w1 = answers w2
  /\ Forall2 sameUpToAction (sent w1) (sent w2).

(** Two outcomes of the same kind, with values related by [R]. *)
Definition sameOutcome {A} (R : A -> A -> Prop) (o1 o2 : Outcome A) : Prop :=
  match o1, o2 with
  | Resolved x, Resolved y => R x y
  | Rejected e1, Rejected e2 => e1 = e2
  | Pending, Pending => True
  | _, _ => False
  end.

(** Two promises that, from similar worlds, settle alike and leave
    similar worlds. *)
Definition agree {A} (R : A -> A -> Prop) (p q : Promise A) : Prop :=
  forall w1 w2,
    similar w1 w2 ->
    sameOutcome R (fst (p w1)) (fst (q w2)) /\ similar (snd (p w1)) (snd (q w2)).

(** The tokens that [checkOrder] resolves to for the two directions. *)
Definition sameToken (t1 t2 : JSValue) : Prop :=
  exists productId confirmationId,
    t1 = JObj [("order", workflowOrder a fields productId);
               ("confirmationId", confirmationId)]
    /\ t2 = JObj [("order", workflowOrder b fields productId);
                  ("confirmationId", confirmationId)].

End Directions.

(** ** What an operation leaves alone *)

(** A promise that never changes what [f] reads of the world. *)
Definition keeps {A X} (f : World -> X) (p : Promise A) : Prop :=
  forall w, f (snd (p w)) = f w.

(** Two promises that, started with the same answers to come, settle alike
    (with values related by [R]) and leave the same answers unread,
    whatever the sessions, the requests sent before and the consoles. *)
Definition blind {A} (R : A -> A -> Prop) (p q : Promise A) : Prop :=
  forall w1 w2,
    answers w1 = answers w2 ->
    sameOutcome R (fst (p w1)) (fst (q w2))
    /\ answers (snd (p w1)) = answers (snd (q w2)).

(** An outcome that is not a fulfilment, at another type. *)
Definition halted {A B} (out : Outcome A) : Outcome B := after out (fun _ => Pending).

(** The requests of a complete order, in the order they are sent: the
    search, the check of [order] and its confirmation under
    [confirmationId]. *)
Definition orderRequests {lib : Collaborators} (s : Session) (params : string)
           (order confirmationId : JSValue) : list Request :=
  [getRequest (searchUrl s params);
   jsonPost (checkOrderUrl s) order;
   jsonPost (confirmOrderUrl s confirmationId) order].

(** The address [getData] asks for. *)
Definition updateUrl (s : Session) (params : string) : string :=
  "https://trader.degiro.nl/trading/secure/v5/update/"
  ++ JS.ToString (account s) ++ ";jsessionid=" ++ JS.ToString (id s) ++ "?" ++ params.

(** ** Closed instances of the collaborators, for running the client *)

Module Node.

Definition dquote : string := String (ascii_of_nat 34) EmptyString.
Definition backslash : string := String (ascii_of_nat 92) EmptyString.

Definition lowerHex (n : nat) : string :=
  String (nth n (list_ascii_of_string "0123456789abcdef") "0"%char) EmptyString.

(** The characters of a JSON string literal. *)
Fixpoint quoteChars (s : string) : string :=
  match s with
  | EmptyString => EmptyString
  | String c rest =>
      let n := nat_of_ascii c in
      (if (n =? 34)%nat then backslash ++ dquote
       else if (n =? 92)%nat then backslash ++ backslash
       else if (n =? 8)%nat then backslash ++ "b"
       else if (n =? 9)%nat then backslash ++ "t"
       else if (n =? 10)%nat then backslash ++ "n"
       else if (n =? 12)%nat then backslash ++ "f"
       else if (n =? 13)%nat then backslash ++ "r"
       else if (n <? 32)%nat then
         backslash ++ "u00" ++ lowerHex (n / 16) ++ lowerHex (n mod 16)
       else String c EmptyString)
      ++ quoteChars rest
  end.

Definition quote (s : string) : string := dquote ++ quoteChars s ++ dquote.

(** [JSON.stringify] on the values of [JSValue]: a property whose value
    is [undefined] is left out, an [undefined] array item prints as
    [null]. *)
Fixpoint stringify (v : JSValue) : string :=
  match v with
  | JUndefined => "undefined"
  | JNull => "null"
  | JBool true => "true"
  | JBool false => "false"
  | JNum n => JS.decimal n
  | JFrac text => text
  | JStr s => quote s
  | JArr items =>
      "[" ++ JS.join "," (map (fun x => match x with
                                        | JUndefined => "null"
                                        | _ => stringify x
                                        end) items) ++ "]"
  | JObj fields =>
      "{" ++ JS.join ","
               ((fix properties (l : list (string * JSValue)) : list string :=
                   match l with
                   | [] => []
                   | (_, JUndefined) :: rest => properties rest
                   | (k, x) :: rest => (quote k ++ ":" ++ stringify x) :: properties rest
                   end) fields) ++ "}"
  end.

(** The blanks [String.prototype.trim] removes from a header: the ASCII
    ones. *)
Definition blank (c : ascii) : bool :=
  let n := nat_of_ascii c in
  ((n =? 32) || ((9 <=? n) && (n <=? 13)))%nat%bool.

Fixpoint trimLeft (s : string) : string :=
  match s with
  | String c rest => if blank c then trimLeft rest else s
  | EmptyString => EmptyString
  end.

Fixpoint trimRight (s : string) : string :=
  match s with
  | EmptyString => EmptyString
  | String c rest =>
      match trimRight rest with
      | EmptyString => if blank c then EmptyString else String c EmptyString
      | kept => String c kept
      end
  end.

Definition trim (s : string) : string := trimLeft (trimRight s).

Fixpoint dropLast (s : string) : string :=
  match s with
  | EmptyString => EmptyString
  | String _ EmptyString => EmptyString
  | String c rest => String c (dropLast rest)
  end.

(** A value that starts with a double quote loses its first and its last
    character: [val.slice(1, -1)]. *)
Definition unquote (s : string) : string :=
  match s with
  | String c rest => if (nat_of_ascii c =? 34)%nat then dropLast rest else s
  | EmptyString => EmptyString
  end.

Definition hexValue (c : ascii) : option nat :=
  let n := nat_of_ascii c in
  (if (48 <=? n) && (n <=? 57) then Some (n - 48)
   else if (65 <=? n) && (n <=? 70) then Some (n - 55)
   else if (97 <=? n) && (n <=? 102) then Some (n - 87)
   else None)%nat%bool.

(** A string as [decodeURIComponent] reads it: plain characters and
    percent-escaped bytes. *)
Inductive Piece : Type :=
| Plain (c : ascii)
| Escaped (byte : nat).

Fixpoint pieces (s : string) : option (list Piece) :=
  match s with
  | EmptyString => Some []
  | String c rest =>
      if Ascii.eqb c "%" then
        match rest with
        | String h (String l rest') =>
            match hexValue h, hexValue l with
            | Some a, Some b => option_map (cons (Escaped (16 * a + b))) (pieces rest')
            | _, _ => None
            end
        | _ => None
        end
      else option_map (cons (Plain c)) (pieces rest)
  end.

Definition within (lo hi b : nat) : bool := ((lo <=? b) && (b <=? hi))%nat.

(** The escaped bytes from 128 on spell UTF-8 encodings of code points. *)
Fixpoint wellFormed (l : list Piece) : bool :=
  match l with
  | [] => true
  | Plain _ :: rest => wellFormed rest
  | Escaped b :: rest =>
      if (b <? 128)%nat then wellFormed rest
      else if within 194 223 b then
        match rest with
        | Escaped c1 :: rest' => within 128 191 c1 && wellFormed rest'
        | _ => false
        end
      else if within 224 239 b then
        match rest with
        | Escaped c1 :: Escaped c2 :: rest' =>
            (if (b =? 224)%nat then within 160 191 c1
             else if (b =? 237)%nat then within 128 159 c1
             else within 128 191 c1)
            && within 128 191 c2 && wellFormed rest'
        | _ => false
        end
      else if within 240 244 b then
        match rest with
        | Escaped c1 :: Escaped c2 :: Escaped c3 :: rest' =>
            (if (b =? 240)%nat then within 144 191 c1
             else if (b =? 244)%nat then within 128 143 c1
             else within 128 191 c1)
            && within 128 191 c2 && within 128 191 c3 && wellFormed rest'
        | _ => false
        end
      else false
  end.

(** [tryDecode(val, decodeURIComponent)]: the value decoded, or as it
    stands when it cannot be. *)
Definition decode (s : string) : string :=
  match pieces s with
  | Some l =>
      if wellFormed l then
        string_of_list_ascii (map (fun p => match p with
                                            | Plain c => c
                                            | Escaped b => ascii_of_nat b
                                            end) l)
      else s
  | None => s
  end.

(** The names an empty object answers to without a field of its own;
    [cookie.parse] binds a name only when [obj[name]] is [undefined]. *)
Definition inherited : list string :=
  ["constructor"; "__defineGetter__"; "__defineSetter__"; "hasOwnProperty";
   "__lookupGetter__"; "__lookupSetter__"; "isPrototypeOf"; "propertyIsEnumerable";
   "toString"; "valueOf"; "__proto__"; "toLocaleString"].

(** The [name=value] pieces of a cookie header, separated by [;]; a piece
    with no [=] is skipped, name and value are trimmed, a quoted value
    loses its quotes, and the value is percent-decoded. *)
Definition cookiePair (piece : string) : list (string * JSValue) :=
  match Querystring.splitOn "=" piece with
  | name :: value :: more =>
      if existsb (String.eqb (trim name)) inherited then []
      else [(trim name, JStr (decode (unquote (trim (JS.join "=" (value :: more))))))]
  | _ => []
  end.

(** [cookie.parse(header)]: the first binding of a name wins. *)
Definition parse (header : string) : list (string * JSValue) :=
  flat_map cookiePair (Querystring.splitOn ";" header).

#[export] Instance collaborators : Collaborators :=
  {| JSON_stringify := stringify; parseCookies := parse |}.

(** Modelled from the spec: the entries of [./constants], a module that is
    not among the sources.  [ProductTypes.all] is the string the
    specification gives for the default product type; the other entries
    are named after themselves. *)
#[export] Instance constants : Constants :=
  {| Actions_buy := JStr "buy";
     Actions_sell := JStr "sell";
     ProductTypes_all := JStr "all";
     ProductTypes_shares := JStr "shares";
     TimeTypes_day := JStr "day" |}.

End Node.

(** A client with a pre-seeded session, order arguments and server answers
    to run the operations on. *)
Module Demo.

Import Node.

Definition client : Client :=
  mkClient (JStr "trader") (JStr "secret") (JBool false)
           (mkSession (JStr "S0") (JNum 7)).

Definition order : list (string * JSValue) :=
  [("orderType", JNum 0); ("productSymbol", JStr "AAPL"); ("size", JNum 10);
   ("price", JNum 150)].

Definition reply (v : JSValue) : FetchResult := Answer (mkResponse None (Some v)).

Definition found : JSValue :=
  JObj [("data", JArr [JObj [("id", JStr "X1"); ("symbol", JStr "AAPL")]])].



Definition checkOk : JSValue := JObj [("status", JNum 0); ("confirmationId", JStr "C1")].

Definition checkFailed : JSValue :=
  JObj [("status", JNum 1); ("message", JStr "insufficient funds")].

Definition confirmOk : JSValue := JObj [("status", JNum 0); ("orderId", JStr "O1")].

Definition loggedIn : Response :=
  mkResponse (Some "JSESSIONID=ABC123.prod; Path=/; HttpOnly") None.

Definition refused : Response := mkResponse None None.

Definition profile : JSValue := JObj [("intAccount", JNum 4242)].

End Demo.

(** * Properties *)

(** ** Converting a value to a string *)

(** Induction on a value, through the items of an array. *)
Lemma JSValue_items_ind (P : JSValue -> Prop) :
  P JUndefined -> P JNull -> (forall b, P (JBool b)) -> (forall n, P (JNum n)) ->
  (forall text, P (JFrac text)) -> (forall s, P (JStr s)) ->
  (forall items, Forall P items -> P (JArr items)) ->
  (forall fields, P (JObj fields)) ->
  forall v, P v.
Proof.
  intros Hu Hn Hb Hz Hf Hs Ha Ho; fix IH 1; intros v.
  destruct v as [| |b|n|t|s|items|fields];
    [exact Hu | exact Hn | apply Hb | apply Hz | apply Hf | apply Hs | | apply Ho].
  apply Ha; induction items as [|x items IHitems]; constructor; [apply IH | exact IHitems].
Qed.

(** Where [ToString] returns, [JS.ToString] is what it returns. *)
Lemma toText_ToString (v : JSValue) :
  forall text, JS.toText v = Normal text -> JS.ToString v = text.
Proof.
  induction v as [| |b|n|t|s|items IHitems|fields] using JSValue_items_ind; simpl; intros text;
    try (intros H; injection H as <-; reflexivity).
  - destruct b; intros H; injection H as <-; reflexivity.
  - match goal with
    | |- cbind (?e items) _ = _ -> _ =>
        assert (forall ps, e items = Normal ps ->
                           map (fun x => match x with
                                         | JUndefined | JNull => ""
                                         | _ => JS.ToString x
                                         end) items = ps) as Hmap;
        [|destruct (e items) as [ps|]; simpl; [|discriminate];
          intros H; injection H as <-; rewrite (Hmap ps eq_refl); reflexivity]
    end.
    induction IHitems as [|x items Hx _ IH]; intros ps; simpl.
    + intros H; injection H as <-; reflexivity.
    + destruct (match x with
                | JUndefined | JNull => Normal ""
                | _ => JS.toText x
                end) as [p|] eqn:Hp; simpl; [|discriminate].
      match goal with
      | |- cbind (?e items) _ = _ -> _ =>
          destruct (e items) as [ps'|]; simpl; [|discriminate]
      end.
      intros H; injection H as <-; rewrite (IH ps' eq_refl); f_equal.
      destruct x; try (injection Hp as <-; reflexivity); apply Hx; exact Hp.
  - destruct (JS.lookup "toString" fields); [discriminate|].
    intros H; injection H as <-; reflexivity.
Qed.

Lemma printable_ToString (v : JSValue) :
  JS.printable v = true -> JS.toText v = Normal (JS.ToString v).
Proof.
  unfold JS.printable; destruct (JS.toText v) as [text|] eqn:Ht; [|discriminate].
  intros _; rewrite (toText_ToString _ _ Ht); reflexivity.
Qed.

(** [ToString] throws nothing but a [TypeError]. *)
Lemma toText_throws (v : JSValue) :
  forall e, JS.toText v = Throw e -> e = TypeError.
Proof.
  induction v as [| |b|n|t|s|items IHitems|fields] using JSValue_items_ind; simpl; intros e;
    try discriminate.
  - destruct b; discriminate.
  - match goal with
    | |- cbind (?each items) _ = _ -> _ =>
        assert (forall e', each items = Throw e' -> e' = TypeError) as Hall;
        [|destruct (each items) as [ps|e'] eqn:He; simpl; [discriminate|];
          intros H; injection H as <-; exact (Hall e' eq_refl)]
    end.
    induction IHitems as [|x items Hx _ IH]; intros e'; simpl; [discriminate|].
    destruct (match x with
              | JUndefined | JNull => Normal ""
              | _ => JS.toText x
              end) as [p|e1] eqn:Hp; simpl.
    + match goal with
      | |- cbind (?each items) _ = _ -> _ =>
          destruct (each items) as [ps'|e2]; simpl; [discriminate|]
      end.
      intros H; injection H as <-; exact (IH e2 eq_refl).
    + intros H; injection H as <-.
      destruct x; try discriminate; exact (Hx e1 Hp).
  - destruct (JS.lookup "toString" fields); [|discriminate].
    intros H; injection H as <-; reflexivity.
Qed.

(** ** lodash *)


(** ** Composing runs *)

(** A run of [p.then(k)] is a run of [p] followed by a run of [k] on its
    value; it ends with [p] when [p] is rejected or never settles. *)
Lemma runs_andThen {A B} (p : Promise A) (k : A -> Promise B) (w : World) (a : A)
      (s1 : Session) (reqs1 : list Request) (rest1 : list FetchResult)
      (out : Outcome B) (s2 : Session) (reqs2 : list Request) (rest2 : list FetchResult) :
  runs p w (Resolved a) s1 reqs1 rest1 ->
  (forall w1, session w1 = s1 -> answers w1 = rest1 -> runs (k a) w1 out s2 reqs2 rest2) ->
  runs (andThen p k) w out s2 (reqs1 ++ reqs2) rest2.
Proof.
  unfold runs, andThen; destruct (p w) as [o w1]; simpl; intros (-> & Hs & Hr & Ha) Hk.
  destruct (Hk w1 Hs Ha) as (? & ? & Hr2 & ?).
  rewrite Hr2, Hr, app_assoc; auto.
Qed.

Lemma runs_stops {A B} (p : Promise A) (k : A -> Promise B) (w : World)
      (out : Outcome A) (s : Session) (reqs : list Request) (rest : list FetchResult) :
  runs p w out s reqs rest ->
  (forall a, out <> Resolved a) ->
  runs (andThen p k) w (after out (fun _ => Pending)) s reqs rest.
Proof.
  unfold runs, andThen; destruct (p w) as [o w1]; simpl; intros (-> & Hs & Hr & Ha) Hne.
  destruct out as [a|e|]; simpl; auto.
  now destruct (Hne a).
Qed.

Lemma andThen_assoc {A B C} (p : Promise A) (f : A -> Promise B) (g : B -> Promise C)
      (w : World) :
  andThen (andThen p f) g w = andThen p (fun a => andThen (f a) g) w.
Proof. unfold andThen; destruct (p w) as [[a|e|] w']; reflexivity. Qed.

Lemma andThen_resolve {A} (p : Promise A) (w : World) : andThen p resolve w = p w.
Proof. unfold andThen; destruct (p w) as [[a|e|] w']; reflexivity. Qed.

Lemma andThen_ext {A B} (p : Promise A) (f g : A -> Promise B) (w : World) :
  (forall a w', f a w' = g a w') -> andThen p f w = andThen p g w.
Proof. intros H; unfold andThen; destruct (p w) as [[a|e|] w']; auto. Qed.

Lemma runs_settle {A} (c : Completion A) (w : World) :
  runs (settle c) w (match c with Normal a => Resolved a | Throw e => Rejected e end)
       (session w) [] (answers w).
Proof. unfold runs; destruct c; simpl; rewrite app_nil_r; auto. Qed.

Section Runs.

Context {lib : Collaborators} {constants : Constants}.
Variable self : Client.

Lemma searchProduct_runs (args : JSValue) (params : string) (w : World) :
  searchParams args = Normal params ->
  runs (searchProduct self args) w (received (answers w))
       (session w) [getRequest (searchUrl (session w) params)] (tl (answers w)).
Proof.
  intros Hp; unfold runs, searchProduct; rewrite Hp.
  unfold andThen, log, written, getSession, fetchGet, fetch, resJson, received; simpl.
  destruct (answers w) as [|[res|reason] rest]; simpl; auto.
  destruct (json res); simpl; auto.
Qed.

Lemma checkOrder_runs (order : list (string * JSValue)) (w : World) :
  runs (checkOrder self (JObj order)) w
       (after (received (answers w)) (checked (JObj order)))
       (session w) [jsonPost (checkOrderUrl (session w)) (JObj order)] (tl (answers w)).
Proof.
  unfold runs, checkOrder, checked, received.
  unfold andThen, log, written, getSession, fetch, resJson; simpl.
  destruct (answers w) as [|[res|reason] rest]; simpl; auto.
  destruct (json res) as [data|]; simpl; auto.
  destruct (checkSuccess data) as [ok|e]; simpl; auto.
  destruct (JS.get ok "confirmationId"); simpl; auto.
Qed.

Lemma confirmOrder_runs (order confirmationId : JSValue) (w : World) :
  runs (confirmOrder self (JObj [("order", order); ("confirmationId", confirmationId)])) w
       (after (received (answers w)) confirmed)
       (session w) [jsonPost (confirmOrderUrl (session w) confirmationId) order]
       (tl (answers w)).
Proof.
  unfold runs, confirmOrder, confirmed, received.
  unfold andThen, log, written, getSession, fetch, resJson; simpl.
  destruct (answers w) as [|[res|reason] rest]; simpl; auto.
  destruct (json res) as [data|]; simpl; auto.
  destruct (checkSuccess data) as [ok|e]; simpl; auto.
  destruct (JS.get ok "orderId"); simpl; auto.
Qed.

Lemma buy_chain fields w : buy self (JObj fields) w = chain self Actions_buy fields w.
Proof. reflexivity. Qed.

Lemma sell_chain fields w : sell self (JObj fields) w = chain self Actions_sell fields w.
Proof. reflexivity. Qed.

Lemma orderWorkflow_chain action fields w :
  orderWorkflow self action fields w = chain self action fields w.
Proof.
  unfold orderWorkflow, chain.
  unfold step at 1; rewrite andThen_assoc; apply andThen_ext; intros result w1.
  rewrite andThen_assoc; apply andThen_ext; intros product w2.
  change (andThen (step self action fields (Checking product))
            (fun confirming =>
               andThen (step self action fields confirming)
                 (fun done => match done with
                              | Done result => resolve result
                              | _ => reject TypeError
                              end)) w2
          = andThen (settle (JS.get product "id"))
              (fun productId =>
                 andThen (checkOrder self (workflowOrder action fields productId))
                   (confirmOrder self)) w2).
  unfold step at 1; rewrite andThen_assoc; apply andThen_ext; intros productId w3.
  rewrite andThen_assoc; apply andThen_ext; intros token w4.
  change (andThen (step self action fields (Confirming token))
            (fun done => match done with
                         | Done result => resolve result
                         | _ => reject TypeError
                         end) w4 = confirmOrder self token w4).
  unfold step; rewrite andThen_assoc.
  change (andThen (confirmOrder self token) resolve w4 = confirmOrder self token w4).
  apply andThen_resolve.
Qed.

Lemma checkOrder_workflow_runs (action : JSValue) (fields : list (string * JSValue))
      (productId : JSValue) (w : World) :
  runs (checkOrder self (workflowOrder action fields productId)) w
       (after (received (answers w)) (checked (workflowOrder action fields productId)))
       (session w)
       [jsonPost (checkOrderUrl (session w)) (workflowOrder action fields productId)]
       (tl (answers w)).
Proof. exact (checkOrder_runs _ w). Qed.

Lemma searchParams_object (fields : list (string * JSValue)) :
  exists params, searchParams (JObj fields) = Normal params.
Proof. eexists; reflexivity. Qed.

(** The three ways the chain of [buy] and [sell] can go, read off the
    answers of the transport. *)
Section Chain.

Variable action : JSValue.
Variable fields : list (string * JSValue).
Variable params : string.
Hypothesis Hparams : searchParams (workflowSearch fields) = Normal params.
Variable w : World.

Let search : Request := getRequest (searchUrl (session w) params).
Let check (productId : JSValue) : Request :=
  jsonPost (checkOrderUrl (session w)) (workflowOrder action fields productId).
Let confirm (productId confirmationId : JSValue) : Request :=
  jsonPost (confirmOrderUrl (session w) confirmationId)
           (workflowOrder action fields productId).



Lemma chain_completes (result product productId order confirmationId : JSValue) :
  received (answers w) = Resolved result ->
  returnFirstProductResult result = Normal product ->
  JS.get product "id" = Normal productId ->
  after (received (tl (answers w))) (checked (workflowOrder action fields productId))
  = Resolved (JObj [("order", order); ("confirmationId", confirmationId)]) ->
  runs (chain self action fields) w (after (received (tl (tl (answers w)))) confirmed)
       (session w) [search; check productId; confirm productId confirmationId]
       (tl (tl (tl (answers w)))).
Proof.
  intros Hr Hp Hi Hc; unfold chain.
  assert (order = workflowOrder action fields productId) as ->.
  { destruct (received (tl (answers w))) as [data| |]; try discriminate.
    simpl in Hc; unfold checked in Hc.
    destruct (checkSuccess data) as [ok|]; try discriminate.
    destruct (JS.get ok "confirmationId"); congruence. }
  pose proof (searchProduct_runs (workflowSearch fields) params w Hparams) as Hs.
  rewrite Hr in Hs.
  change [search; check productId; confirm productId confirmationId]
    with ([search] ++ [] ++ [] ++ [check productId]
            ++ [confirm productId confirmationId])%list.
  eapply runs_andThen; [exact Hs|]; intros w1 Hs1 Ha1.
  eapply runs_andThen.
  { generalize (runs_settle (returnFirstProductResult result) w1); rewrite Hp.
    intros H; exact H. }
  intros w2 Hs2 Ha2.
  eapply runs_andThen.
  { generalize (runs_settle (JS.get product "id") w2); rewrite Hi.
    intros H; exact H. }
  intros w3 Hs3 Ha3.
  eapply runs_andThen.
  { generalize (checkOrder_workflow_runs action fields productId w3).
    rewrite Hs3, Ha3, Hs2, Ha2, Hs1, Ha1, Hc; intros H; exact H. }
  intros w4 Hs4 Ha4.
  generalize (confirmOrder_runs (workflowOrder action fields productId) confirmationId w4).
  rewrite Hs4, Ha4; auto.
Qed.

End Chain.

End Runs.

(** ** The success check *)

Lemma isNumber_other (status : JSValue) (n : Z) :
  status <> JNum n -> JS.isNumber status n = false.
Proof.
  intros Hne; destruct status; simpl; try reflexivity.
  destruct (Z.eqb_spec n0 n); [subst; congruence | reflexivity].
Qed.

(** C1. On a response whose [status] is the number 0 the success check
    returns the response itself; on any other [status] it throws what
    [throw Error(res.message)] throws: for a [message] that is a string,
    the [Error] whose message is that string as it stands; for one that
    [ToString] converts, the [Error] of its text; and for one that it
    cannot convert, the [TypeError] of the conversion, which carries
    nothing of the response. *)
Theorem checkSuccess_status (res status message : JSValue) :
  JS.get res "status" = Normal status ->
  JS.get res "message" = Normal message ->
  (status = JNum 0 -> checkSuccess res = Normal res)
  /\ (status <> JNum 0 -> checkSuccess res = Throw (JS.mkError message))
  /\ (status <> JNum 0 ->
      forall m, message = JStr m -> checkSuccess res = Throw (Error m))
  /\ (status <> JNum 0 ->
      forall text, message <> JUndefined -> JS.toText message = Normal text ->
                   checkSuccess res = Throw (Error text))
  /\ (status <> JNum 0 ->
      JS.printable message = false -> checkSuccess res = Throw TypeError).
Proof.
  intros Hs Hm; unfold checkSuccess; rewrite Hs; simpl.
  split; [|split; [|split; [|split]]].
  - intros ->; reflexivity.
  - intros H; rewrite (isNumber_other _ _ H), Hm; reflexivity.
  - intros H m ->; rewrite (isNumber_other _ _ H), Hm; reflexivity.
  - intros H text Hu Ht; rewrite (isNumber_other _ _ H), Hm; simpl.
    unfold JS.mkError; rewrite Ht; destruct message; congruence.
  - intros H Hp; rewrite (isNumber_other _ _ H), Hm; simpl.
    unfold JS.mkError, JS.printable in *.
    destruct (JS.toText message) as [text|e] eqn:Ht; [discriminate|].
    rewrite (toText_throws _ _ Ht); destruct message; try reflexivity; discriminate.
Qed.

Lemma checkSuccess_status_witness :
  checkSuccess (JObj [("status", JNum 0); ("confirmationId", JStr "C1")])
  = Normal (JObj [("status", JNum 0); ("confirmationId", JStr "C1")])
  /\ checkSuccess (JObj [("status", JNum 1); ("message", JStr "insufficient funds")])
     = Throw (Error "insufficient funds").
Proof.
  split.
  - apply (proj1 (checkSuccess_status
                    (JObj [("status", JNum 0); ("confirmationId", JStr "C1")])
                    (JNum 0) JUndefined eq_refl eq_refl)).
    reflexivity.
  - apply (proj1 (proj2 (proj2 (checkSuccess_status
                    (JObj [("status", JNum 1); ("message", JStr "insufficient funds")])
                    (JNum 1) (JStr "insufficient funds") eq_refl eq_refl)))).
    + discriminate.
    + reflexivity.
Defined.

(** A response whose [status] is not 0 and whose [message] cannot be
    converted to a string: the success check throws a [TypeError], and no
    [Error] that would carry the message. *)
Lemma checkSuccess_unprintable_message :
  JS.get (JObj [("status", JNum 1); ("message", JObj [("toString", JNum 1)])]) "status"
  = Normal (JNum 1)
  /\ JNum 1 <> JNum 0
  /\ JS.get (JObj [("status", JNum 1); ("message", JObj [("toString", JNum 1)])]) "message"
     = Normal (JObj [("toString", JNum 1)])
  /\ checkSuccess (JObj [("status", JNum 1); ("message", JObj [("toString", JNum 1)])])
     = Throw TypeError
  /\ ~ (exists m,
          checkSuccess (JObj [("status", JNum 1); ("message", JObj [("toString", JNum 1)])])
          = Throw (Error m)).
Proof.
  split; [reflexivity|]; split; [discriminate|]; split; [reflexivity|].
  split; [reflexivity|].
  intros [m H]; discriminate H.
Qed.

(** ** The order workflow *)

Lemma runs_same {A} (p q : Promise A) (w : World) (out : Outcome A)
      (s : Session) (requests : list Request) (rest : list FetchResult) :
  p w = q w -> runs q w out s requests rest -> runs p w out s requests rest.
Proof. unfold runs; intros ->; auto. Qed.

Lemma returnFirstProductResult_first (result product : JSValue) (others : list JSValue) :
  JS.get result "data" = Normal (JArr (product :: others)) ->
  returnFirstProductResult result = Normal product.
Proof. unfold returnFirstProductResult; intros ->; reflexivity. Qed.



Lemma received_answer (res : Response) (rest : list FetchResult) (v : JSValue) :
  json res = Some v -> received (Answer res :: rest) = Resolved v.
Proof. simpl; intros ->; reflexivity. Qed.


Lemma checked_accepts (order data confirmationId : JSValue) :
  JS.get data "status" = Normal (JNum 0) ->
  JS.get data "confirmationId" = Normal confirmationId ->
  checked order data = Resolved (JObj [("order", order); ("confirmationId", confirmationId)]).
Proof.
  intros Hs Hc; unfold checked, checkSuccess; rewrite Hs; simpl; rewrite Hc; reflexivity.
Qed.


Section Orders.

Context {lib : Collaborators} {constants : Constants}.
Variable self : Client.
Variable fields : list (string * JSValue).
Variable w : World.






End Orders.

(** ** Logging in *)

Section Login.

Context {lib : Collaborators}.
Variable self : Client.
Variable w : World.

Lemma login_rejected (res : Response) (rest : list FetchResult) (token : JSValue) :
  answers w = Answer res :: rest ->
  JS.field "JSESSIONID" (parseCookies (setCookieOrEmpty res)) = token ->
  JS.truthy token = false ->
  runs (login self) w (Rejected (Error "Login error"))
       (mkSession token (account (session w))) [loginRequest self] rest.
Proof.
  intros Ha Ht Hf; unfold runs, login.
  unfold andThen, log, written, getSession, setSession, fetch; simpl; rewrite Ha; simpl.
  rewrite Ht, Hf; simpl; auto.
Qed.

Lemma login_resolved (res1 res2 : Response) (rest : list FetchResult)
      (token profile intAccount : JSValue) :
  answers w = Answer res1 :: Answer res2 :: rest ->
  JS.field "JSESSIONID" (parseCookies (setCookieOrEmpty res1)) = token ->
  JS.truthy token = true ->
  json res2 = Some profile ->
  JS.get profile "intAccount" = Normal intAccount ->
  runs (login self) w (Resolved (mkSession token intAccount))
       (mkSession token intAccount)
       [loginRequest self; clientInfoRequest token] rest.
Proof.
  intros Ha Ht Hf Hj Hi; unfold runs, login, updateClientInfo.
  unfold andThen, log, written, getSession, setSession, fetchGet, fetch, resJson;
    simpl; rewrite Ha; simpl.
  rewrite Ht, Hf; simpl; rewrite Hj; simpl; rewrite Hi; simpl.
  rewrite <- app_assoc; auto.
Qed.

Lemma no_cookie_field (cookies : list (string * JSValue)) :
  JS.lookup "JSESSIONID" cookies = None -> JS.field "JSESSIONID" cookies = JUndefined.
Proof. unfold JS.field; intros ->; reflexivity. Qed.

(** C3. When the login response carries a session cookie and the profile
    call answers with an account identifier, [login] resolves with the
    session, in which both the token and the account identifier are set.
    When the login response carries no session cookie, [login] rejects
    with the login error, the account identifier is what it was, and the
    profile request is not sent. *)
Theorem login_sets_session_or_fails :
  (forall res1 res2 rest token profile intAccount,
      answers w = Answer res1 :: Answer res2 :: rest ->
      JS.lookup "JSESSIONID" (parseCookies (setCookieOrEmpty res1)) = Some token ->
      JS.truthy token = true ->
      json res2 = Some profile ->
      JS.get profile "intAccount" = Normal intAccount ->
      fst (login self w) = Resolved (mkSession token intAccount)
      /\ id (session (snd (login self w))) = token
      /\ account (session (snd (login self w))) = intAccount)
  /\ (forall res rest,
         answers w = Answer res :: rest ->
         JS.lookup "JSESSIONID" (parseCookies (setCookieOrEmpty res)) = None ->
         fst (login self w) = Rejected (Error "Login error")
         /\ account (session (snd (login self w))) = account (session w)
         /\ sent (snd (login self w)) = (sent w ++ [loginRequest self])%list).
Proof.
  split.
  - intros res1 res2 rest token profile intAccount Ha Hl Ht Hj Hi.
    assert (JS.field "JSESSIONID" (parseCookies (setCookieOrEmpty res1)) = token) as Hf
        by (unfold JS.field; rewrite Hl; reflexivity).
    destruct (login_resolved res1 res2 rest token profile intAccount Ha Hf Ht Hj Hi)
      as (Ho & Hs & _ & _).
    rewrite Ho, Hs; auto.
  - intros res rest Ha Hl.
    destruct (login_rejected res rest JUndefined Ha (no_cookie_field _ Hl) eq_refl)
      as (Ho & Hs & Hr & _).
    rewrite Ho, Hs, Hr; auto.
Qed.

(** C9. When the login response carries no session cookie, [login] has
    stored [undefined] as the session token by the time it rejects,
    whatever token the session held, and the account field is
    untouched. *)
Theorem failed_login_clobbers_token (res : Response) (rest : list FetchResult) :
  answers w = Answer res :: rest ->
  JS.lookup "JSESSIONID" (parseCookies (setCookieOrEmpty res)) = None ->
  fst (login self w) = Rejected (Error "Login error")
  /\ session (snd (login self w)) = mkSession JUndefined (account (session w)).
Proof.
  intros Ha Hl.
  destruct (login_rejected res rest JUndefined Ha (no_cookie_field _ Hl) eq_refl)
    as (Ho & Hs & _ & _).
  auto.
Qed.

End Login.


(** ** Cash funds *)


Section CashFunds.

Context {lib : Collaborators}.
Variable self : Client.



Lemma getCashFunds_runs (w : World) :
  runs (getCashFunds self) w
       (after (received (answers w))
              (fun data => match cashFundsOf data with
                           | Normal out => Resolved out
                           | Throw e => Rejected e
                           end))
       (session w)
       [getRequest (BASE_URL ++ "/trading/secure/v5/update/"
                    ++ JS.ToString (account (session w)) ++ ";jsessionid="
                    ++ JS.ToString (id (session w)) ++ "?cashFunds=0")]
       (tl (answers w)).
Proof.
  unfold runs, getCashFunds, getData, received.
  unfold andThen, log, written, getSession, fetchGet, fetch, resJson; simpl.
  destruct (answers w) as [|[res|reason] rest]; simpl; auto.
  destruct (json res) as [data|]; simpl; auto.
  destruct (cashFundsOf data); simpl; auto.
Qed.


End CashFunds.

(** ** Query strings *)

Lemma contains_app (c : ascii) (s1 s2 : string) :
  contains c (s1 ++ s2) = contains c s1 || contains c s2.
Proof.
  induction s1 as [|a s1 IH]; simpl; [reflexivity|].
  rewrite IH; apply orb_assoc.
Qed.

Lemma splitOn_clean (sep : ascii) (s : string) :
  contains sep s = false -> Querystring.splitOn sep s = [s].
Proof.
  induction s as [|a s IH]; simpl; [reflexivity|].
  intros H; apply orb_false_iff in H as [Ha Hs].
  rewrite Ha, (IH Hs); reflexivity.
Qed.

Lemma splitOn_first (sep : ascii) (s1 s2 : string) :
  contains sep s1 = false ->
  Querystring.splitOn sep (s1 ++ String sep s2) = s1 :: Querystring.splitOn sep s2.
Proof.
  induction s1 as [|a s1 IH]; simpl.
  - intros _; rewrite Ascii.eqb_refl; reflexivity.
  - intros H; apply orb_false_iff in H as [Ha Hs].
    rewrite Ha, (IH Hs); reflexivity.
Qed.

Lemma hexDigit_unreserved (n : nat) : Querystring.unreserved (Querystring.hexDigit n) = true.
Proof. do 16 (destruct n as [|n]; [reflexivity|]); destruct n; reflexivity. Qed.

(** A reserved character other than [%] does not survive escaping. *)
Lemma escape_clean (c : ascii) (s : string) :
  Querystring.unreserved c = false ->
  c <> "%"%char ->
  contains c (Querystring.escape s) = false.
Proof.
  intros Hc Hp; induction s as [|a s IH]; [reflexivity|].
  assert (forall x, Querystring.unreserved x = true -> Ascii.eqb x c = false) as Hne.
  { intros x Hx; destruct (Ascii.eqb_spec x c); [subst; congruence | reflexivity]. }
  assert (Ascii.eqb "%"%char c = false) as Hpc.
  { destruct (Ascii.eqb_spec "%"%char c); [subst; congruence | reflexivity]. }
  cbn [Querystring.escape].
  destruct (Querystring.unreserved a) eqn:Ha; cbn [contains].
  - rewrite (Hne a Ha), IH; reflexivity.
  - rewrite Hpc, !(Hne _ (hexDigit_unreserved _)), IH; reflexivity.
Qed.

Lemma nameOf_pair (k v : string) :
  Querystring.nameOf (Querystring.escape k ++ "=" ++ Querystring.escape v)
  = Querystring.escape k.
Proof.
  unfold Querystring.nameOf.
  change ("=" ++ Querystring.escape v) with (String "="%char (Querystring.escape v)).
  rewrite splitOn_first; [reflexivity|].
  apply escape_clean; [reflexivity | discriminate].
Qed.

Lemma pairsOf_shape (kv : string * JSValue) (piece : string) :
  In piece (Querystring.pairsOf kv) ->
  exists v, piece = Querystring.escape (fst kv) ++ "=" ++ Querystring.escape v.
Proof.
  unfold Querystring.pairsOf.
  assert (forall s1 s2 s3 : string, ((s1 ++ s2) ++ s3 = s1 ++ s2 ++ s3)%string) as Hassoc.
  { intros s1 s2 s3; induction s1; simpl; congruence. }
  destruct (snd kv) as [| | | | | |items|] eqn:Hv;
    try (intros [<-|[]]; rewrite Hassoc; eexists; reflexivity).
  intros Hin; apply in_map_iff in Hin as (x & <- & _); eexists; apply Hassoc.
Qed.

Lemma names_join (pieces : list string) :
  pieces <> [] ->
  Forall (fun p => contains "&" p = false) pieces ->
  Querystring.names (JS.join "&" pieces) = map Querystring.nameOf pieces.
Proof.
  unfold Querystring.names, Querystring.parameters.
  induction pieces as [|p pieces IH]; [congruence|].
  intros _ Hall; inversion Hall as [|? ? Hp Hrest]; subst.
  destruct pieces as [|q pieces].
  - simpl JS.join; rewrite (splitOn_clean _ _ Hp); reflexivity.
  - change (JS.join "&" (p :: q :: pieces))
      with (p ++ String "&"%char (JS.join "&" (q :: pieces))).
    rewrite (splitOn_first _ _ _ Hp); cbn [map]; f_equal.
    apply IH; [discriminate | exact Hrest].
Qed.

(** The parameter names of [querystring.stringify(obj)] are the escaped
    keys of [obj] (and the empty name when nothing is written). *)
Lemma names_stringify (fields : list (string * JSValue)) (name : string) :
  In name (Querystring.names (Querystring.stringify (JObj fields))) ->
  name = EmptyString \/ exists k v, In (k, v) fields /\ name = Querystring.escape k.
Proof.
  simpl Querystring.stringify.
  destruct (flat_map Querystring.pairsOf fields) as [|p pieces] eqn:Hf.
  - simpl; intros [<-|[]]; left; reflexivity.
  - rewrite <- Hf, names_join.
    + intros Hin; apply in_map_iff in Hin as (piece & <- & Hin).
      apply in_flat_map in Hin as ([k v] & Hkv & Hp).
      apply pairsOf_shape in Hp as (x & ->); simpl fst.
      right; exists k, v; split; [exact Hkv | apply nameOf_pair].
    + rewrite Hf; discriminate.
    + apply Forall_forall; intros piece Hin.
      apply in_flat_map in Hin as ([k v] & _ & Hp).
      apply pairsOf_shape in Hp as (x & ->).
      change ("=" ++ Querystring.escape x) with (String "="%char (Querystring.escape x)).
      rewrite contains_app; simpl.
      rewrite !escape_clean; (reflexivity || discriminate).
Qed.

Lemma piece_clean (kv : string * JSValue) (piece : string) :
  In piece (Querystring.pairsOf kv) -> contains "&" piece = false.
Proof.
  intros Hin; apply pairsOf_shape in Hin as (x & ->).
  change ("=" ++ Querystring.escape x) with (String "="%char (Querystring.escape x)).
  rewrite contains_app; simpl.
  rewrite !escape_clean; (reflexivity || discriminate).
Qed.

Lemma parameters_join (pieces : list string) :
  pieces <> [] ->
  Forall (fun p => contains "&" p = false) pieces ->
  Querystring.parameters (JS.join "&" pieces) = pieces.
Proof.
  unfold Querystring.parameters.
  induction pieces as [|p pieces IH]; [congruence|].
  intros _ Hall; inversion Hall as [|? ? Hp Hrest]; subst.
  destruct pieces as [|q pieces].
  - simpl JS.join; apply splitOn_clean, Hp.
  - change (JS.join "&" (p :: q :: pieces))
      with (p ++ String "&"%char (JS.join "&" (q :: pieces))).
    rewrite (splitOn_first _ _ _ Hp); f_equal.
    apply IH; [discriminate | exact Hrest].
Qed.

(** Splitting what [querystring.stringify] wrote gives back the pairs it
    joined. *)
Lemma parameters_stringify (fields : list (string * JSValue)) :
  flat_map Querystring.pairsOf fields <> [] ->
  Querystring.parameters (Querystring.stringify (JObj fields))
  = flat_map Querystring.pairsOf fields.
Proof.
  intros Hne; simpl Querystring.stringify; apply parameters_join; [exact Hne|].
  apply Forall_forall; intros piece Hin.
  apply in_flat_map in Hin as (kv & _ & Hp); exact (piece_clean kv piece Hp).
Qed.

(** A property of the object is a parameter of the string, as
    [querystring.stringify] writes it. *)
Lemma parameter_of_property (fields : list (string * JSValue)) (k : string) (v : JSValue)
      (piece : string) :
  In (k, v) fields ->
  In piece (Querystring.pairsOf (k, v)) ->
  In piece (Querystring.parameters (Querystring.stringify (JObj fields))).
Proof.
  intros Hin Hp.
  assert (In piece (flat_map Querystring.pairsOf fields)) as Hall
      by (apply in_flat_map; eauto).
  rewrite parameters_stringify; [exact Hall|].
  intros Hnil; rewrite Hnil in Hall; destruct Hall.
Qed.

(** And the string has no other parameter (but the empty one, when there
    is nothing to write). *)
Lemma property_of_parameter (fields : list (string * JSValue)) (piece : string) :
  In piece (Querystring.parameters (Querystring.stringify (JObj fields))) ->
  piece = EmptyString
  \/ exists k v, In (k, v) fields /\ In piece (Querystring.pairsOf (k, v)).
Proof.
  destruct (flat_map Querystring.pairsOf fields) as [|p pieces] eqn:Hf.
  - simpl Querystring.stringify; rewrite Hf; simpl.
    intros [<-|[]]; left; reflexivity.
  - rewrite parameters_stringify by (rewrite Hf; discriminate).
    intros Hin; apply in_flat_map in Hin as ([k v] & Hkv & Hp); eauto.
Qed.

(** ** Searching *)

Section Search.

Context {lib : Collaborators} {constants : Constants}.
Variable self : Client.
Variable fields : list (string * JSValue).

Let options : list (string * JSValue) :=
  [("searchText", JS.field "text" fields);
   ("productType", JS.orDefault (JS.field "productType" fields) ProductTypes_all);
   ("sortColumn", JS.field "sortColumn" fields);
   ("sortType", JS.field "sortType" fields);
   ("limit", JS.orDefault (JS.field "limit" fields) (JNum 7));
   ("offset", JS.orDefault (JS.field "offset" fields) (JNum 0))].

Lemma searchOptions_object : searchOptions (JObj fields) = Normal options.
Proof. reflexivity. Qed.

(** A property of the query is a property of [options] that is not
    nil. *)
Lemma query_property (k : string) (v : JSValue) :
  In (k, v) (Lodash.omitBy options Lodash.isNil) <->
  In (k, v) options /\ Lodash.isNil v = false.
Proof.
  unfold Lodash.omitBy; rewrite filter_In; simpl snd.
  rewrite negb_true_iff; reflexivity.
Qed.

Lemma options_property (k : string) (v : JSValue) :
  In (k, v) options -> v = JS.field k options /\ Querystring.escape k = k.
Proof.
  intros Hin; simpl in Hin.
  repeat (destruct Hin as [Hin|Hin]; [injection Hin as <- <-; split; reflexivity|]).
  destruct Hin.
Qed.

(** An option that is [undefined] is no parameter of the query
    string. *)
Lemma undefined_option_omitted (name : string) :
  name <> EmptyString ->
  JS.field name options = JUndefined ->
  ~ In name (JS.keys (Lodash.omitBy options Lodash.isNil))
  /\ ~ In name (Querystring.names
                  (Querystring.stringify (JObj (Lodash.omitBy options Lodash.isNil)))).
Proof.
  intros Hname Hu.
  assert (forall v, ~ In (name, v) (Lodash.omitBy options Lodash.isNil)) as Hno.
  { intros v Hin; apply query_property in Hin as [Hin Hv].
    apply options_property in Hin as [-> _]; rewrite Hu in Hv; discriminate. }
  split.
  - intros Hin; unfold JS.keys in Hin; apply in_map_iff in Hin as ([k v] & <- & Hin).
    exact (Hno v Hin).
  - intros Hin; apply names_stringify in Hin as [->|(k & v & Hin & ->)].
    + congruence.
    + pose proof Hin as Hq; apply query_property in Hq as [Hq _].
      apply options_property in Hq as [_ He]; rewrite He in *.
      exact (Hno v Hin).
Qed.

(** C7. [searchProduct] fills in [ProductTypes.all], 7 and 0 for a
    product type, a limit and an offset that are not supplied, and they go
    out as the parameters [productType], [limit=7] and [offset=0] of the
    query string, which ends the address of the one request sent (for a
    session whose token and account can be printed into it); a sort column
    or a sort type that is not supplied is no property of the object handed
    to [querystring.stringify] and no parameter of that string.  The
    string is what [querystring.stringify] writes for that object: its
    parameters are the properties of the object, none of which is
    [undefined] or [null]. *)
Theorem searchProduct_query :
  exists options query params,
    searchOptions (JObj fields) = Normal options
    /\ searchQuery (JObj fields) = Normal query
    /\ searchParams (JObj fields) = Normal params
    /\ (forall w,
           JS.printable (id (session w)) = true ->
           JS.printable (account (session w)) = true ->
           sent (snd (searchProduct self (JObj fields) w))
           = (sent w
              ++ [mkRequest
                    ("https://trader.degiro.nl/product_search/secure/v4/product/lookup?intAccount="
                     ++ JS.ToString (account (session w)) ++ "&sessionId="
                     ++ JS.ToString (id (session w)) ++ "&" ++ params)
                    GET [] None "follow"])%list)
    /\ (JS.field "productType" fields = JUndefined ->
        JS.field "productType" options = ProductTypes_all)
    /\ (JS.field "limit" fields = JUndefined ->
        JS.field "limit" options = JNum 7 /\ In ("limit", JNum 7) query)
    /\ (JS.field "offset" fields = JUndefined ->
        JS.field "offset" options = JNum 0 /\ In ("offset", JNum 0) query)
    /\ (JS.field "sortColumn" fields = JUndefined ->
        ~ In "sortColumn" (JS.keys query)
        /\ ~ In "sortColumn" (Querystring.names params))
    /\ (JS.field "sortType" fields = JUndefined ->
        ~ In "sortType" (JS.keys query)
        /\ ~ In "sortType" (Querystring.names params))
    /\ (forall k v, In (k, v) query -> Lodash.isNil v = false)
    /\ params = Querystring.stringify (JObj query)
    /\ (forall k v piece,
           In (k, v) query -> In piece (Querystring.pairsOf (k, v)) ->
           In piece (Querystring.parameters params))
    /\ (forall piece,
           In piece (Querystring.parameters params) ->
           piece = EmptyString
           \/ exists k v, In (k, v) query /\ In piece (Querystring.pairsOf (k, v)))
    /\ (JS.field "limit" fields = JUndefined ->
        In "limit=7" (Querystring.parameters params))
    /\ (JS.field "offset" fields = JUndefined ->
        In "offset=0" (Querystring.parameters params))
    /\ (JS.field "productType" fields = JUndefined ->
        forall all, ProductTypes_all = JStr all ->
                    In ("productType=" ++ Querystring.escape all)
                       (Querystring.parameters params)).
Proof.
  exists options, (Lodash.omitBy options Lodash.isNil),
    (Querystring.stringify (JObj (Lodash.omitBy options Lodash.isNil))).
  split; [reflexivity|]; split; [reflexivity|]; split; [reflexivity|].
  assert (JS.field "limit" fields = JUndefined ->
          In ("limit", JNum 7) (Lodash.omitBy options Lodash.isNil)) as Hlimit.
  { intros H; apply query_property; split; [|reflexivity].
    unfold options; rewrite H; simpl; auto 10. }
  assert (JS.field "offset" fields = JUndefined ->
          In ("offset", JNum 0) (Lodash.omitBy options Lodash.isNil)) as Hoffset.
  { intros H; apply query_property; split; [|reflexivity].
    unfold options; rewrite H; simpl; auto 10. }
  split; [|split; [|split; [|split; [|split; [|split; [|split; [|split; [|split; [|split; [|split; [|split]]]]]]]]]]].
  - intros w _ _.
    destruct (searchProduct_runs self (JObj fields) _ w eq_refl) as (_ & _ & Hs & _).
    exact Hs.
  - intros H.
    change (JS.field "productType" options)
      with (JS.orDefault (JS.field "productType" fields) ProductTypes_all).
    rewrite H; reflexivity.
  - intros H; split; [|exact (Hlimit H)].
    change (JS.field "limit" options)
      with (JS.orDefault (JS.field "limit" fields) (JNum 7)).
    rewrite H; reflexivity.
  - intros H; split; [|exact (Hoffset H)].
    change (JS.field "offset" options)
      with (JS.orDefault (JS.field "offset" fields) (JNum 0)).
    rewrite H; reflexivity.
  - intros H; apply undefined_option_omitted; [discriminate | exact H].
  - intros H; apply undefined_option_omitted; [discriminate | exact H].
  - intros k v Hin; apply query_property in Hin as [_ Hv]; exact Hv.
  - reflexivity.
  - intros k v piece; apply parameter_of_property.
  - apply property_of_parameter.
  - intros H; apply (parameter_of_property _ "limit" (JNum 7)); [exact (Hlimit H)|].
    left; reflexivity.
  - intros H; apply (parameter_of_property _ "offset" (JNum 0)); [exact (Hoffset H)|].
    left; reflexivity.
  - intros H all Hall.
    apply (parameter_of_property _ "productType" (JStr all)); [|left; reflexivity].
    apply query_property; split; [|reflexivity].
    unfold options; rewrite H, Hall; simpl; auto 10.
Qed.

End Search.

(** ** The two directions of an order *)

Section BothDirections.

Context {lib : Collaborators} {constants : Constants}.
Variable self : Client.
Variable fields : list (string * JSValue).
Variables a b : JSValue.

Local Abbreviation alike := (sameUpToAction fields a b).
Local Abbreviation close := (similar fields a b).
Local Abbreviation agrees := (agree fields a b).

Lemma sameUpToAction_refl (r : Request) : alike r r.
Proof. unfold sameUpToAction; tauto. Qed.

Lemma similar_refl (w : World) : close w w.
Proof.
  repeat split.
  induction (sent w); constructor; auto using sameUpToAction_refl.
Qed.

Lemma agree_andThen {A B} (R : A -> A -> Prop) (S : B -> B -> Prop)
      (p q : Promise A) (k l : A -> Promise B) :
  agrees R p q ->
  (forall x y, R x y -> agrees S (k x) (l y)) ->
  agrees S (andThen p k) (andThen q l).
Proof.
  intros Hp Hk w1 w2 Hw; unfold andThen.
  destruct (Hp w1 w2 Hw) as [Ho Hw'].
  destruct (p w1) as [[x|e1|] w1'], (q w2) as [[y|e2|] w2']; simpl in *;
    try contradiction; auto.
  apply Hk; assumption.
Qed.

Lemma agree_settle {A} (c : Completion A) : agrees eq (settle c) (settle c).
Proof. intros w1 w2 Hw; destruct c; simpl; auto. Qed.

Lemma agree_log (s1 s2 : list JSValue) : agrees eq (log self s1) (log self s2).
Proof. intros w1 w2 Hw; simpl; split; [reflexivity|exact Hw]. Qed.

Lemma agree_resolve {A} (R : A -> A -> Prop) (x y : A) :
  R x y -> agrees R (resolve x) (resolve y).
Proof. intros H w1 w2 Hw; simpl; auto. Qed.

Lemma agree_getSession : agrees eq getSession getSession.
Proof. intros w1 w2 Hw; simpl; split; [apply Hw | exact Hw]. Qed.

Lemma agree_fetch (r1 r2 : Request) :
  alike r1 r2 -> agrees eq (fetch r1) (fetch r2).
Proof.
  intros Hr w1 w2 (Hs & Ha & Hf).
  unfold fetch; rewrite Hs, Ha.
  assert (Forall2 alike (sent w1 ++ [r1]) (sent w2 ++ [r2])) as Hf'
      by (apply Forall2_app; auto).
  destruct (answers w2) as [|[res|reason] rest]; simpl; repeat split; auto.
Qed.

Lemma agree_resJson (res : Response) : agrees eq (resJson res) (resJson res).
Proof. intros w1 w2 Hw; unfold resJson; destruct (json res); simpl; auto. Qed.

Lemma agree_searchProduct (args : JSValue) :
  agrees eq (searchProduct self args) (searchProduct self args).
Proof.
  unfold searchProduct.
  eapply agree_andThen; [apply agree_settle|]; intros params ? <-.
  eapply agree_andThen; [apply agree_log|]; intros _ _ _.
  eapply agree_andThen; [apply agree_getSession|]; intros s ? <-.
  eapply agree_andThen; [apply agree_fetch, sameUpToAction_refl|]; intros res ? <-.
  apply agree_resJson.
Qed.

Lemma agree_checkOrder (productId : JSValue) :
  agrees (sameToken fields a b)
        (checkOrder self (workflowOrder a fields productId))
        (checkOrder self (workflowOrder b fields productId)).
Proof.
  unfold checkOrder.
  eapply (agree_andThen (fun _ _ => True)).
  { intros w1 w2 Hw; simpl; auto. }
  intros f1 f2 _.
  eapply agree_andThen; [apply agree_log|]; intros _ _ _.
  eapply agree_andThen; [apply agree_getSession|]; intros s ? <-.
  eapply agree_andThen.
  { apply agree_fetch; repeat split; right; exists productId; split; reflexivity. }
  intros res ? <-.
  eapply agree_andThen; [apply agree_resJson|]; intros data ? <-.
  eapply agree_andThen; [apply agree_settle|]; intros json ? <-.
  eapply agree_andThen; [apply agree_settle|]; intros confirmationId ? <-.
  apply agree_resolve; exists productId, confirmationId; split; reflexivity.
Qed.

Lemma agree_confirmOrder (t1 t2 : JSValue) :
  sameToken fields a b t1 t2 -> agrees eq (confirmOrder self t1) (confirmOrder self t2).
Proof.
  intros (productId & confirmationId & -> & ->); unfold confirmOrder.
  eapply (agree_andThen (fun x y => x = workflowOrder a fields productId
                                    /\ y = workflowOrder b fields productId)).
  { intros w1 w2 Hw; simpl; auto. }
  intros ? ? [-> ->].
  eapply agree_andThen; [apply agree_settle|]; intros cid ? <-.
  eapply agree_andThen; [apply agree_log|]; intros _ _ _.
  eapply agree_andThen; [apply agree_getSession|]; intros s ? <-.
  eapply agree_andThen.
  { apply agree_fetch; repeat split; right; exists productId; split; reflexivity. }
  intros res ? <-.
  eapply agree_andThen; [apply agree_resJson|]; intros data ? <-.
  eapply agree_andThen; [apply agree_settle|]; intros json ? <-.
  eapply agree_andThen; [apply agree_settle|]; intros orderId ? <-.
  apply agree_resolve; reflexivity.
Qed.

(** The chain runs alike for the two directions. *)
Lemma agree_chain : agrees eq (chain self a fields) (chain self b fields).
Proof.
  unfold chain.
  eapply agree_andThen; [apply agree_searchProduct|]; intros result ? <-.
  eapply agree_andThen; [apply agree_settle|]; intros product ? <-.
  eapply agree_andThen; [apply agree_settle|]; intros productId ? <-.
  eapply agree_andThen; [apply agree_checkOrder|]; intros t1 t2 Ht.
  apply agree_confirmOrder; exact Ht.
Qed.

End BothDirections.

Lemma sameOutcome_eq {A} (o1 o2 : Outcome A) : sameOutcome eq o1 o2 -> o1 = o2.
Proof. destruct o1, o2; simpl; intros H; subst; (reflexivity || contradiction). Qed.

Section OneWorkflow.

Context {lib : Collaborators} {constants : Constants}.
Variable self : Client.
Variable fields : list (string * JSValue).
Variable w : World.

(** C8. [buy] and [sell] are the one order workflow, run with the buy
    and with the sell action: each is the state machine [orderWorkflow] at
    its action; the order objects they build have the action as their
    [buysell] field and are otherwise the same; and from any world the
    two settle alike, leave the same session and the same answers unread,
    and have sent the same requests up to the action in the order
    bodies. *)
Theorem buy_sell_one_workflow :
  buy self (JObj fields) w = orderWorkflow self Actions_buy fields w
  /\ sell self (JObj fields) w = orderWorkflow self Actions_sell fields w
  /\ (forall orderType productId size timeType price stopPrice,
         exists common,
           forall action,
             orderOf action orderType productId size timeType price stopPrice
             = JObj (("buysell", action) :: common))
  /\ fst (buy self (JObj fields) w) = fst (sell self (JObj fields) w)
  /\ session (snd (buy self (JObj fields) w)) = session (snd (sell self (JObj fields) w))
  /\ answers (snd (buy self (JObj fields) w)) = answers (snd (sell self (JObj fields) w))
  /\ Forall2 (sameUpToAction fields Actions_buy Actions_sell)
             (sent (snd (buy self (JObj fields) w)))
             (sent (snd (sell self (JObj fields) w))).
Proof.
  split; [rewrite orderWorkflow_chain; apply buy_chain|].
  split; [rewrite orderWorkflow_chain; apply sell_chain|].
  split; [intros; eexists; intros; reflexivity|].
  rewrite buy_chain, sell_chain.
  destruct (agree_chain self fields Actions_buy Actions_sell w w
              (similar_refl fields Actions_buy Actions_sell w))
    as (Ho & Hs & Ha & Hf).
  auto using sameOutcome_eq.
Qed.

End OneWorkflow.

(** * Further properties *)

(** ** What the operations leave alone *)

Lemma keeps_andThen {A B X} (f : World -> X) (p : Promise A) (k : A -> Promise B) :
  keeps f p -> (forall a, keeps f (k a)) -> keeps f (andThen p k).
Proof.
  intros Hp Hk w; unfold andThen.
  specialize (Hp w); destruct (p w) as [[a|e|] w1]; simpl in *; auto.
  rewrite (Hk a w1); exact Hp.
Qed.

Lemma keeps_settle {A X} (f : World -> X) (c : Completion A) : keeps f (settle c).
Proof. intros w; destruct c; reflexivity. Qed.

Lemma keeps_resolve {A X} (f : World -> X) (a : A) : keeps f (resolve a).
Proof. intros w; reflexivity. Qed.

Lemma keeps_reject {A X} (f : World -> X) (e : JSError) : keeps f (@reject A e).
Proof. intros w; reflexivity. Qed.

Lemma keeps_resJson {X} (f : World -> X) (res : Response) : keeps f (resJson res).
Proof. intros w; unfold resJson; destruct (json res); reflexivity. Qed.

Lemma keeps_getSession {X} (f : World -> X) : keeps f getSession.
Proof. intros w; reflexivity. Qed.

Lemma fetch_keeps_session (req : Request) : keeps session (fetch req).
Proof. intros w; unfold fetch; destruct (answers w) as [|[res|reason] rest]; reflexivity. Qed.

Lemma fetch_keeps_console (req : Request) : keeps console (fetch req).
Proof. intros w; unfold fetch; destruct (answers w) as [|[res|reason] rest]; reflexivity. Qed.

Lemma fetchGet_keeps_session (u : string) : keeps session (fetchGet u).
Proof. apply fetch_keeps_session. Qed.

Lemma fetchGet_keeps_console (u : string) : keeps console (fetchGet u).
Proof. apply fetch_keeps_console. Qed.

Lemma setSession_keeps_console (s : Session) : keeps console (setSession s).
Proof. intros w; reflexivity. Qed.

Lemma log_keeps_session (self : Client) (s : list JSValue) : keeps session (log self s).
Proof. intros w; reflexivity. Qed.

Lemma log_keeps_console (self : Client) (s : list JSValue) :
  JS.truthy (debug self) = false -> keeps console (log self s).
Proof. intros H w; unfold log, written; simpl; rewrite H; reflexivity. Qed.

Create HintDb frame.

#[local] Hint Resolve keeps_settle keeps_resolve keeps_reject keeps_resJson keeps_getSession fetch_keeps_session
  fetch_keeps_console fetchGet_keeps_session fetchGet_keeps_console
  setSession_keeps_console log_keeps_session log_keeps_console
  : frame.

Ltac frame :=
  repeat (apply keeps_andThen; [|intros]);
  try match goal with
      | |- keeps _ (if ?b then _ else _) => destruct b
      end;
  auto with frame.

Section Frames.

Context {lib : Collaborators} {constants : Constants}.
Variable self : Client.

Lemma getData_keeps_session (options : JSValue) : keeps session (getData self options).
Proof. unfold getData, fetchGet; frame. Qed.

Lemma searchProduct_keeps_session (args : JSValue) : keeps session (searchProduct self args).
Proof. unfold searchProduct, fetchGet; frame. Qed.

Lemma checkOrder_keeps_session (order : JSValue) : keeps session (checkOrder self order).
Proof. unfold checkOrder; frame. Qed.

Lemma confirmOrder_keeps_session (token : JSValue) : keeps session (confirmOrder self token).
Proof. unfold confirmOrder; frame. Qed.

#[local] Hint Resolve getData_keeps_session searchProduct_keeps_session
  checkOrder_keeps_session confirmOrder_keeps_session : frame.

(** X10. Only [login] writes the session: reading data, reading the cash
    funds or the portfolio, searching, buying and selling leave the token
    and the account as they were, however the call ends. *)
Theorem session_written_by_login_only (args : JSValue) (w : World) :
  session (snd (getData self args w)) = session w
  /\ session (snd (getCashFunds self w)) = session w
  /\ session (snd (getPortfolio self w)) = session w
  /\ session (snd (searchProduct self args w)) = session w
  /\ session (snd (buy self args w)) = session w
  /\ session (snd (sell self args w)) = session w.
Proof.
  repeat split.
  - apply getData_keeps_session.
  - revert w; change (keeps session (getCashFunds self)); unfold getCashFunds; frame.
  - revert w; change (keeps session (getPortfolio self)); unfold getPortfolio; frame.
  - apply searchProduct_keeps_session.
  - revert w; change (keeps session (buy self args)); unfold buy; frame.
  - revert w; change (keeps session (sell self args)); unfold sell; frame.
Qed.

Lemma getData_keeps_console (options : JSValue) :
  JS.truthy (debug self) = false -> keeps console (getData self options).
Proof. intros H; unfold getData, fetchGet; frame. Qed.

Lemma searchProduct_keeps_console (args : JSValue) :
  JS.truthy (debug self) = false -> keeps console (searchProduct self args).
Proof. intros H; unfold searchProduct, fetchGet; frame. Qed.

Lemma checkOrder_keeps_console (order : JSValue) :
  JS.truthy (debug self) = false -> keeps console (checkOrder self order).
Proof. intros H; unfold checkOrder; frame. Qed.

Lemma confirmOrder_keeps_console (token : JSValue) :
  JS.truthy (debug self) = false -> keeps console (confirmOrder self token).
Proof. intros H; unfold confirmOrder; frame. Qed.

Lemma login_keeps_console :
  JS.truthy (debug self) = false -> keeps console (login self).
Proof.
  intros H; unfold login, updateClientInfo, fetchGet; frame.
Qed.

#[local] Hint Resolve getData_keeps_console searchProduct_keeps_console
  checkOrder_keeps_console confirmOrder_keeps_console : frame.

(** X4. With [debug] not set (the default) no operation writes to the
    console. *)
Theorem silent_without_debug (args : JSValue) (w : World) :
  JS.truthy (debug self) = false ->
  console (snd (login self w)) = console w
  /\ console (snd (getData self args w)) = console w
  /\ console (snd (getCashFunds self w)) = console w
  /\ console (snd (getPortfolio self w)) = console w
  /\ console (snd (searchProduct self args w)) = console w
  /\ console (snd (buy self args w)) = console w
  /\ console (snd (sell self args w)) = console w.
Proof.
  intros H; repeat split.
  - apply login_keeps_console, H.
  - apply getData_keeps_console, H.
  - revert w; change (keeps console (getCashFunds self)); unfold getCashFunds; frame.
  - revert w; change (keeps console (getPortfolio self)); unfold getPortfolio; frame.
  - apply searchProduct_keeps_console, H.
  - revert w; change (keeps console (buy self args)); unfold buy; frame.
  - revert w; change (keeps console (sell self args)); unfold sell; frame.
Qed.

End Frames.

(** ** What decides an outcome *)

Lemma blind_andThen {A B} (R : A -> A -> Prop) (S : B -> B -> Prop)
      (p q : Promise A) (k l : A -> Promise B) :
  blind R p q ->
  (forall x y, R x y -> blind S (k x) (l y)) ->
  blind S (andThen p k) (andThen q l).
Proof.
  intros Hp Hk w1 w2 Hw; unfold andThen.
  destruct (Hp w1 w2 Hw) as [Ho Hw'].
  destruct (p w1) as [[x|e1|] w1'], (q w2) as [[y|e2|] w2']; simpl in *;
    try contradiction; auto.
  apply Hk; assumption.
Qed.

Lemma blind_settle {A} (c : Completion A) : blind eq (settle c) (settle c).
Proof. intros w1 w2 Hw; destruct c; simpl; auto. Qed.

Lemma blind_resJson (res : Response) : blind eq (resJson res) (resJson res).
Proof. intros w1 w2 Hw; unfold resJson; destruct (json res); simpl; auto. Qed.

Lemma blind_resolve {A} (a : A) : blind eq (resolve a) (resolve a).
Proof. intros w1 w2 Hw; simpl; auto. Qed.

Lemma blind_log (self : Client) (s1 s2 : list JSValue) :
  blind eq (log self s1) (log self s2).
Proof. intros w1 w2 Hw; simpl; auto. Qed.

Lemma blind_getSession : blind (fun _ _ => True) getSession getSession.
Proof. intros w1 w2 Hw; simpl; auto. Qed.

(** The answer to a request does not depend on the request. *)
Lemma blind_fetch (r1 r2 : Request) : blind eq (fetch r1) (fetch r2).
Proof.
  intros w1 w2 Hw; unfold fetch; rewrite Hw.
  destruct (answers w2) as [|[res|reason] rest]; simpl; auto.
Qed.

Ltac blindly :=
  repeat first
    [ eapply blind_andThen;
      [ first [ apply blind_settle | apply blind_log | apply blind_getSession
              | apply blind_fetch | apply blind_resJson ]
      | first [ intros ? ? <- | intros ? ? _ ] ]
    | apply blind_resJson | apply blind_resolve | apply blind_settle ].

Section Blind.

Context {lib : Collaborators} {constants : Constants}.
Variable self : Client.

Lemma blind_getData (options : JSValue) :
  blind eq (getData self options) (getData self options).
Proof. unfold getData, fetchGet; blindly. Qed.

Lemma blind_searchProduct (args : JSValue) :
  blind eq (searchProduct self args) (searchProduct self args).
Proof. unfold searchProduct, fetchGet; blindly. Qed.

Lemma blind_checkOrder (order : JSValue) :
  blind eq (checkOrder self order) (checkOrder self order).
Proof. unfold checkOrder; blindly. Qed.

Lemma blind_confirmOrder (token : JSValue) :
  blind eq (confirmOrder self token) (confirmOrder self token).
Proof. unfold confirmOrder; blindly. Qed.

Lemma blind_buy (args : JSValue) : blind eq (buy self args) (buy self args).
Proof.
  unfold buy; blindly.
  eapply blind_andThen; [apply blind_searchProduct|]; intros ? ? <-; blindly.
  eapply blind_andThen; [apply blind_checkOrder|]; intros ? ? <-.
  apply blind_confirmOrder.
Qed.

Lemma blind_sell (args : JSValue) : blind eq (sell self args) (sell self args).
Proof.
  unfold sell; blindly.
  eapply blind_andThen; [apply blind_searchProduct|]; intros ? ? <-; blindly.
  eapply blind_andThen; [apply blind_checkOrder|]; intros ? ? <-.
  apply blind_confirmOrder.
Qed.

(** X21. No operation but [login] looks at the session to decide how it
    ends, as long as the token and the account can be printed into the
    address (a template literal throws on a value that [ToString] cannot
    convert): started with the same answers to come, [getData],
    [getCashFunds], [getPortfolio], [searchProduct], [buy] and [sell]
    settle in the same way whatever the token and the account are, set or
    not. *)
Theorem outcome_ignores_session (args : JSValue) (w1 w2 : World) :
  JS.printable (id (session w1)) = true ->
  JS.printable (account (session w1)) = true ->
  JS.printable (id (session w2)) = true ->
  JS.printable (account (session w2)) = true ->
  answers w1 = answers w2 ->
  fst (getData self args w1) = fst (getData self args w2)
  /\ fst (getCashFunds self w1) = fst (getCashFunds self w2)
  /\ fst (getPortfolio self w1) = fst (getPortfolio self w2)
  /\ fst (searchProduct self args w1) = fst (searchProduct self args w2)
  /\ fst (buy self args w1) = fst (buy self args w2)
  /\ fst (sell self args w1) = fst (sell self args w2).
Proof.
  intros _ _ _ _ Hw.
  assert (blind eq (getCashFunds self) (getCashFunds self)) as Hc.
  { unfold getCashFunds; eapply blind_andThen; [apply blind_getData|].
    intros ? ? <-; apply blind_settle. }
  assert (blind eq (getPortfolio self) (getPortfolio self)) as Hp.
  { unfold getPortfolio; eapply blind_andThen; [apply blind_getData|].
    intros ? ? <-; apply blind_settle. }
  repeat split; apply sameOutcome_eq.
  - apply (blind_getData args w1 w2 Hw).
  - apply (Hc w1 w2 Hw).
  - apply (Hp w1 w2 Hw).
  - apply (blind_searchProduct args w1 w2 Hw).
  - apply (blind_buy args w1 w2 Hw).
  - apply (blind_sell args w1 w2 Hw).
Qed.

End Blind.

(** ** How far an order gets *)

Lemma runs_halts {A B} (p : Promise A) (k : A -> Promise B) (w : World)
      (out : Outcome A) (s : Session) (reqs : list Request) (rest : list FetchResult) :
  runs p w out s reqs rest ->
  (forall a, out <> Resolved a) ->
  runs (andThen p k) w (halted out) s reqs rest.
Proof. exact (runs_stops p k w out s reqs rest). Qed.

Lemma checkSuccess_accepts (data ok : JSValue) :
  checkSuccess data = Normal ok -> ok = data /\ JS.get data "status" = Normal (JNum 0).
Proof.
  unfold checkSuccess.
  destruct (JS.get data "status") as [status|] eqn:Hs; simpl; [|discriminate].
  destruct status as [| | |n| | | |]; simpl; try (destruct (JS.get data "message"); discriminate).
  destruct (Z.eqb_spec n 0) as [->|]; simpl.
  - intros H; injection H as <-; auto.
  - destruct (JS.get data "message"); discriminate.
Qed.

Lemma checked_resolved (order data token : JSValue) :
  checked order data = Resolved token ->
  JS.get data "status" = Normal (JNum 0)
  /\ exists confirmationId,
       JS.get data "confirmationId" = Normal confirmationId
       /\ token = JObj [("order", order); ("confirmationId", confirmationId)].
Proof.
  unfold checked.
  destruct (checkSuccess data) as [ok|] eqn:Hc; [|discriminate].
  apply checkSuccess_accepts in Hc as [-> Hs].
  destruct (JS.get data "confirmationId") as [confirmationId|]; [|discriminate].
  intros H; injection H as <-; eauto.
Qed.

Lemma confirmed_rejects (data status message : JSValue) :
  JS.get data "status" = Normal status ->
  status <> JNum 0 ->
  JS.get data "message" = Normal message ->
  confirmed data = Rejected (JS.mkError message).
Proof.
  intros Hs Hne Hm; unfold confirmed, checkSuccess; rewrite Hs; simpl.
  rewrite (isNumber_other _ _ Hne); simpl; rewrite Hm; reflexivity.
Qed.

Lemma received_resolved (script : list FetchResult) (v : JSValue) :
  received script = Resolved v ->
  exists res rest, script = Answer res :: rest /\ json res = Some v.
Proof.
  destruct script as [|[res|reason] rest]; simpl; try discriminate.
  destruct (json res) as [v'|] eqn:Hj; [|discriminate].
  intros H; injection H as <-; eauto.
Qed.

Section Progress.

Context {lib : Collaborators} {constants : Constants}.
Variable self : Client.
Variable action : JSValue.
Variable fields : list (string * JSValue).
Variable params : string.
Hypothesis Hparams : searchParams (workflowSearch fields) = Normal params.
Variable w : World.

Let search : Request := getRequest (searchUrl (session w) params).
Let check (productId : JSValue) : Request :=
  jsonPost (checkOrderUrl (session w)) (workflowOrder action fields productId).
Let confirm (productId confirmationId : JSValue) : Request :=
  jsonPost (confirmOrderUrl (session w) confirmationId)
           (workflowOrder action fields productId).

(** The search did not yield a product id: nothing else is sent. *)
Lemma chain_halts_at_search (out : Outcome JSValue) :
  (forall a, out <> Resolved a) ->
  after (received (answers w))
        (fun result =>
           after (match returnFirstProductResult result with
                  | Normal product => Resolved product
                  | Throw e => Rejected e
                  end)
                 (fun product =>
                    match JS.get product "id" with
                    | Normal productId => Resolved productId
                    | Throw e => Rejected e
                    end)) = out ->
  runs (chain self action fields) w (halted out) (session w) [search] (tl (answers w)).
Proof.
  intros Hne Hout; unfold chain.
  pose proof (searchProduct_runs self (workflowSearch fields) params w Hparams) as Hs.
  destruct (received (answers w)) as [result|e|]; simpl in Hout; subst out;
    try (apply (runs_halts _ _ _ _ _ _ _ Hs); discriminate).
  change [search] with ([search] ++ [])%list.
  eapply runs_andThen; [exact Hs|]; intros w1 Hs1 Ha1; rewrite <- Hs1, <- Ha1.
  pose proof (runs_settle (returnFirstProductResult result) w1) as Hf.
  destruct (returnFirstProductResult result) as [product|e]; simpl in *;
    try (apply (runs_halts _ _ _ _ _ _ _ Hf); discriminate).
  change (@nil Request) with (@nil Request ++ [])%list.
  eapply runs_andThen; [exact Hf|]; intros w2 Hs2 Ha2; rewrite <- Hs2, <- Ha2.
  pose proof (runs_settle (JS.get product "id") w2) as Hi.
  destruct (JS.get product "id") as [productId|e]; simpl in *.
  - destruct (Hne productId eq_refl).
  - apply (runs_halts _ _ _ _ _ _ _ Hi); discriminate.
Qed.

(** The check did not yield a token: the confirm request is not sent. *)
Lemma chain_halts_at_check (result product productId : JSValue) (out : Outcome JSValue) :
  received (answers w) = Resolved result ->
  returnFirstProductResult result = Normal product ->
  JS.get product "id" = Normal productId ->
  (forall a, out <> Resolved a) ->
  after (received (tl (answers w))) (checked (workflowOrder action fields productId)) = out ->
  runs (chain self action fields) w (halted out) (session w)
       [search; check productId] (tl (tl (answers w))).
Proof.
  intros Hr Hp Hi Hne Hc; unfold chain.
  pose proof (searchProduct_runs self (workflowSearch fields) params w Hparams) as Hs.
  rewrite Hr in Hs.
  change [search; check productId] with ([search] ++ [] ++ [] ++ [check productId])%list.
  eapply runs_andThen; [exact Hs|]; intros w1 Hs1 Ha1.
  eapply runs_andThen.
  { generalize (runs_settle (returnFirstProductResult result) w1); rewrite Hp.
    intros H; exact H. }
  intros w2 Hs2 Ha2.
  eapply runs_andThen.
  { generalize (runs_settle (JS.get product "id") w2); rewrite Hi.
    intros H; exact H. }
  intros w3 Hs3 Ha3.
  apply runs_halts; [|exact Hne].
  generalize (checkOrder_workflow_runs self action fields productId w3).
  rewrite Hs3, Ha3, Hs2, Ha2, Hs1, Ha1, Hc; auto.
Qed.

(** A run of the chain sends the search, then the check, then the confirm
    request, and stops at the first that does not go through. *)
Lemma chain_progress :
  exists (n : nat) (productId confirmationId : JSValue) (out : Outcome JSValue),
    (1 <= n <= 3)%nat
    /\ runs (chain self action fields) w out (session w)
            (firstn n [search; check productId; confirm productId confirmationId])
            (Nat.iter n (@tl FetchResult) (answers w))
    /\ (n < 3 -> forall a, out <> Resolved a)%nat
    /\ (2 <= n ->
        exists result product,
          received (answers w) = Resolved result
          /\ returnFirstProductResult result = Normal product
          /\ JS.get product "id" = Normal productId)%nat
    /\ (n = 3 ->
        exists check,
          received (tl (answers w)) = Resolved check
          /\ JS.get check "status" = Normal (JNum 0)
          /\ JS.get check "confirmationId" = Normal confirmationId
          /\ out = after (received (tl (tl (answers w)))) confirmed)%nat.
Proof.
  destruct (received (answers w)) as [result|e|] eqn:Hr.
  2,3: exists 1%nat, JUndefined, JUndefined; eexists; split; [lia|]; split;
    [apply chain_halts_at_search; [|rewrite Hr; reflexivity]; discriminate|];
    split; [intros _ a; discriminate|]; split; intros; lia.
  destruct (returnFirstProductResult result) as [product|e] eqn:Hp.
  2: exists 1%nat, JUndefined, JUndefined; eexists; split; [lia|]; split;
    [apply chain_halts_at_search; [|rewrite Hr; simpl; rewrite Hp; reflexivity];
     discriminate|];
    split; [intros _ a; discriminate|]; split; intros; lia.
  destruct (JS.get product "id") as [productId|e] eqn:Hi.
  2: exists 1%nat, JUndefined, JUndefined; eexists; split; [lia|]; split;
    [apply chain_halts_at_search;
     [|rewrite Hr; simpl; rewrite Hp; simpl; rewrite Hi; reflexivity]; discriminate|];
    split; [intros _ a; discriminate|]; split; intros; lia.
  destruct (after (received (tl (answers w)))
                  (checked (workflowOrder action fields productId))) as [token|e|] eqn:Hc.
  2,3: exists 2%nat, productId, JUndefined; eexists; split; [lia|]; split;
    [eapply (chain_halts_at_check result product productId _ Hr Hp Hi);
     [|exact Hc]; discriminate|];
    split; [intros _ a; discriminate|]; split; [eauto|intros; lia].
  destruct (received (tl (answers w))) as [data| |] eqn:Hr2; try discriminate.
  simpl in Hc; destruct (checked_resolved _ _ _ Hc) as (Hs & confirmationId & Hid & ->).
  exists 3%nat, productId, confirmationId; eexists; split; [lia|]; split.
  - apply (chain_completes self action fields params Hparams w result product productId
             (workflowOrder action fields productId) confirmationId Hr Hp Hi).
    rewrite Hr2; exact Hc.
  - split; [intros; lia|]; split; [eauto|]; intros _; exists data; auto.
Qed.

End Progress.

Section Placing.

Context {lib : Collaborators} {constants : Constants}.
Variable self : Client.
Variable fields : list (string * JSValue).
Variable w : World.

(** What [chain_progress] says of the requests, for either direction. *)
Lemma chain_sequence (action : JSValue) :
  exists (params : string) (n : nat) (productId confirmationId : JSValue),
    searchParams (workflowSearch fields) = Normal params
    /\ (1 <= n <= 3)%nat
    /\ sent (snd (chain self action fields w))
       = (sent w ++ firstn n (orderRequests (session w) params
                                (workflowOrder action fields productId)
                                confirmationId))%list
    /\ answers (snd (chain self action fields w))
       = Nat.iter n (@tl FetchResult) (answers w)
    /\ ((n < 3)%nat -> forall a, fst (chain self action fields w) <> Resolved a)
    /\ (n = 3%nat ->
        exists result check,
          received (answers w) = Resolved result
          /\ received (tl (answers w)) = Resolved check
          /\ JS.get check "status" = Normal (JNum 0)).
Proof.
  destruct (searchParams_object
              [("text", JS.field "productSymbol" fields);
               ("productType",
                JS.orDefault (JS.field "productType" fields) ProductTypes_shares);
               ("limit", JNum 1)]) as [params Hp].
  destruct (chain_progress self action fields params Hp w)
    as (n & productId & confirmationId & out & Hn & (Hout & _ & Hsent & Hrest)
        & Hlt & H2 & H3).
  exists params, n, productId, confirmationId.
  split; [exact Hp|]; split; [exact Hn|]; split; [exact Hsent|]; split; [exact Hrest|].
  split.
  - intros H a; rewrite Hout; exact (Hlt H a).
  - intros H; destruct (H3 H) as (check & Hr & Hs & _).
    destruct H2 as (result & product & Hres & _); [lia|]; eauto.
Qed.

(** X11. With a session whose token and account can be printed into an
    address (a template literal throws on a value that [ToString] cannot
    convert, before anything is sent), [buy] and [sell] send between one
    and three requests and always in the same order: the search, then the
    check, then the confirm request, each with the session's token and
    account in its address; one answer is read per request, and the
    promise is fulfilled only after all three. *)
Theorem order_requests_in_sequence :
  JS.printable (id (session w)) = true ->
  JS.printable (account (session w)) = true ->
  (exists params n productId confirmationId,
      searchParams (workflowSearch fields) = Normal params
      /\ (1 <= n <= 3)%nat
      /\ sent (snd (buy self (JObj fields) w))
         = (sent w ++ firstn n (orderRequests (session w) params
                                  (workflowOrder Actions_buy fields productId)
                                  confirmationId))%list
      /\ answers (snd (buy self (JObj fields) w)) = Nat.iter n (@tl FetchResult) (answers w)
      /\ ((n < 3)%nat -> forall a, fst (buy self (JObj fields) w) <> Resolved a))
  /\ (exists params n productId confirmationId,
         searchParams (workflowSearch fields) = Normal params
         /\ (1 <= n <= 3)%nat
         /\ sent (snd (sell self (JObj fields) w))
            = (sent w ++ firstn n (orderRequests (session w) params
                                     (workflowOrder Actions_sell fields productId)
                                     confirmationId))%list
         /\ answers (snd (sell self (JObj fields) w))
            = Nat.iter n (@tl FetchResult) (answers w)
         /\ ((n < 3)%nat -> forall a, fst (sell self (JObj fields) w) <> Resolved a)).
Proof.
  intros _ _; split.
  - destruct (chain_sequence Actions_buy)
      as (params & n & productId & confirmationId & Hp & Hn & Hs & Ha & Hlt & _).
    rewrite buy_chain; exists params, n, productId, confirmationId; auto.
  - destruct (chain_sequence Actions_sell)
      as (params & n & productId & confirmationId & Hp & Hn & Hs & Ha & Hlt & _).
    rewrite sell_chain; exists params, n, productId, confirmationId; auto.
Qed.

(** X12. The confirm request is sent only for a check that was accepted:
    when [buy] or [sell] has sent a third request, the transport had
    answered the search, and had answered the check with a status of 0. *)
Theorem confirm_follows_accepted_check :
  ((length (sent w) + 3 <= length (sent (snd (buy self (JObj fields) w))))%nat
   \/ (length (sent w) + 3 <= length (sent (snd (sell self (JObj fields) w))))%nat) ->
  exists res1 res2 rest check,
    answers w = Answer res1 :: Answer res2 :: rest
    /\ json res2 = Some check
    /\ JS.get check "status" = Normal (JNum 0).
Proof.
  assert (forall action,
             (length (sent w) + 3 <= length (sent (snd (chain self action fields w))))%nat ->
             exists res1 res2 rest check,
               answers w = Answer res1 :: Answer res2 :: rest
               /\ json res2 = Some check
               /\ JS.get check "status" = Normal (JNum 0)) as Hchain.
  { intros action.
    destruct (chain_sequence action)
      as (params & n & productId & confirmationId & _ & Hn & Hs & _ & _ & H3).
    rewrite Hs, length_app, length_firstn; simpl length; intros Hlen.
    destruct H3 as (result & check & Hr1 & Hr2 & Hstatus); [lia|].
    apply received_resolved in Hr1 as (res1 & rest1 & Ha & _).
    rewrite Ha in Hr2; simpl in Hr2.
    apply received_resolved in Hr2 as (res2 & rest & -> & Hj).
    exists res1, res2, rest, check; auto. }
  intros [H|H]; [rewrite buy_chain in H | rewrite sell_chain in H]; eauto.
Qed.

End Placing.

Section Refusals.

Context {lib : Collaborators} {constants : Constants}.
Variable self : Client.
Variable fields : list (string * JSValue).
Variable w : World.

Lemma chain_confirm_outcome (action : JSValue) (res1 res2 : Response) (a3 : FetchResult)
      (rest : list FetchResult) (result product productId check confirmationId : JSValue)
      (others : list JSValue) :
  answers w = Answer res1 :: Answer res2 :: a3 :: rest ->
  json res1 = Some result ->
  JS.get result "data" = Normal (JArr (product :: others)) ->
  JS.get product "id" = Normal productId ->
  json res2 = Some check ->
  JS.get check "status" = Normal (JNum 0) ->
  JS.get check "confirmationId" = Normal confirmationId ->
  exists params,
    searchParams (workflowSearch fields) = Normal params
    /\ runs (chain self action fields) w (after (received (a3 :: rest)) confirmed)
            (session w)
            (orderRequests (session w) params (workflowOrder action fields productId)
                           confirmationId)
            rest.
Proof.
  intros Ha H1 Hd Hi H2 Hs Hc.
  destruct (searchParams_object
              [("text", JS.field "productSymbol" fields);
               ("productType",
                JS.orDefault (JS.field "productType" fields) ProductTypes_shares);
               ("limit", JNum 1)]) as [params Hp].
  exists params; split; [exact Hp|].
  pose proof (chain_completes self action fields params Hp w result product
                productId (workflowOrder action fields productId) confirmationId) as H.
  rewrite Ha in H; simpl tl in H.
  rewrite (received_answer _ _ _ H1), (received_answer _ _ _ H2) in H; simpl after in H.
  apply H; auto using checked_accepts.
  eapply returnFirstProductResult_first; eassumption.
Qed.

(** X13. When the check was accepted, with a confirmation id that can be
    printed into the address of the confirm request (as the token and the
    account of the session can), and the confirm call answers a status
    other than 0, [buy] and [sell] reject with the message of that answer,
    after the three requests: nothing is retried and nothing is undone. *)
Theorem confirm_refused (res1 res2 res3 : Response) (rest : list FetchResult)
        (result product productId check confirmationId confirm status : JSValue)
        (others : list JSValue) (message : string) :
  answers w = Answer res1 :: Answer res2 :: Answer res3 :: rest ->
  json res1 = Some result ->
  JS.get result "data" = Normal (JArr (product :: others)) ->
  JS.get product "id" = Normal productId ->
  json res2 = Some check ->
  JS.get check "status" = Normal (JNum 0) ->
  JS.get check "confirmationId" = Normal confirmationId ->
  JS.printable confirmationId = true ->
  JS.printable (id (session w)) = true ->
  JS.printable (account (session w)) = true ->
  json res3 = Some confirm ->
  JS.get confirm "status" = Normal status ->
  status <> JNum 0 ->
  JS.get confirm "message" = Normal (JStr message) ->
  exists params,
    searchParams (workflowSearch fields) = Normal params
    /\ runs (buy self (JObj fields)) w (Rejected (Error message)) (session w)
            (orderRequests (session w) params
                           (workflowOrder Actions_buy fields productId) confirmationId)
            rest
    /\ runs (sell self (JObj fields)) w (Rejected (Error message)) (session w)
            (orderRequests (session w) params
                           (workflowOrder Actions_sell fields productId) confirmationId)
            rest.
Proof.
  intros Ha H1 Hd Hi H2 Hs Hc _ _ _ H3 Hs3 Hne Hm.
  destruct (chain_confirm_outcome Actions_buy res1 res2 (Answer res3) rest result product
              productId check confirmationId others Ha H1 Hd Hi H2 Hs Hc)
    as (params & Hp & Hb).
  destruct (chain_confirm_outcome Actions_sell res1 res2 (Answer res3) rest result product
              productId check confirmationId others Ha H1 Hd Hi H2 Hs Hc)
    as (params' & Hp' & Hsell).
  assert (params' = params) as -> by congruence.
  rewrite (received_answer _ _ _ H3) in Hb, Hsell; simpl after in Hb, Hsell.
  rewrite (confirmed_rejects _ _ _ Hs3 Hne Hm) in Hb, Hsell.
  exists params; split; [exact Hp|]; split.
  - exact (runs_same _ _ _ _ _ _ _ (buy_chain self fields w) Hb).
  - exact (runs_same _ _ _ _ _ _ _ (sell_chain self fields w) Hsell).
Qed.



End Refusals.

(** ** More on logging in *)

Section LoginSteps.

Context {lib : Collaborators}.
Variable self : Client.
Variable w : World.

(** X8. When the login request gets no response (the transport fails, or
    never answers), [login] ends as the transport does, the session keeps
    its token and its account, and the profile request is not sent. *)
Theorem login_without_response :
  (forall reason rest,
      answers w = Failure reason :: rest ->
      runs (login self) w (Rejected (FetchError reason)) (session w)
           [loginRequest self] rest)
  /\ (answers w = [] ->
      runs (login self) w Pending (session w) [loginRequest self] []).
Proof.
  split.
  - intros reason rest Ha; unfold runs, login.
    unfold andThen, log, written, getSession, setSession, fetch; simpl; rewrite Ha; simpl.
    auto.
  - intros Ha; unfold runs, login.
    unfold andThen, log, written, getSession, setSession, fetch; simpl; rewrite Ha; simpl.
    auto.
Qed.

(** The second step of [login], once the cookie is in. *)
Lemma login_profile_step (res1 : Response) (script : list FetchResult) (token : JSValue) :
  answers w = Answer res1 :: script ->
  JS.field "JSESSIONID" (parseCookies (setCookieOrEmpty res1)) = token ->
  JS.truthy token = true ->
  login self w
  = match received script with
    | Resolved profile =>
        match JS.get profile "intAccount" with
        | Normal intAccount =>
            (Resolved (mkSession token intAccount),
             mkWorld (mkSession token intAccount)
                     (sent w ++ [loginRequest self; clientInfoRequest token]) (tl script)
                     (console (written self [JStr "updateClientInfo"]
                                (written self [JStr "login"; username self;
                                               JStr "********"] w))))
        | Throw e =>
            (Rejected e,
             mkWorld (mkSession token (account (session w)))
                     (sent w ++ [loginRequest self; clientInfoRequest token]) (tl script)
                     (console (written self [JStr "updateClientInfo"]
                                (written self [JStr "login"; username self;
                                               JStr "********"] w))))
        end
    | out =>
        (halted out,
         mkWorld (mkSession token (account (session w)))
                 (sent w ++ [loginRequest self; clientInfoRequest token]) (tl script)
                 (console (written self [JStr "updateClientInfo"]
                            (written self [JStr "login"; username self;
                                           JStr "********"] w))))
    end.
Proof.
  intros Ha Ht Hf; unfold login, updateClientInfo.
  unfold andThen, log, written, getSession, setSession, fetchGet, fetch, resJson;
    simpl; rewrite Ha; simpl.
  rewrite Ht, Hf; simpl; rewrite <- app_assoc; simpl.
  destruct script as [|[res2|reason] rest]; simpl; try reflexivity.
  destruct (json res2) as [profile|]; simpl; [|reflexivity].
  destruct (JS.get profile "intAccount"); reflexivity.
Qed.

(** X6. When the cookie was received and the profile step fails (the
    transport fails; the body is not JSON, which is node-fetch's
    [FetchError] of type [invalid-json]; or the body is [null], which has
    no [intAccount] to read), [login] rejects with that failure and leaves
    the session with the new token and the account it had before. *)
Theorem login_profile_failure (res1 : Response) (step : FetchResult)
        (rest : list FetchResult) (token : JSValue) (e : JSError) :
  answers w = Answer res1 :: step :: rest ->
  JS.lookup "JSESSIONID" (parseCookies (setCookieOrEmpty res1)) = Some token ->
  JS.truthy token = true ->
  ((exists reason, step = Failure reason /\ e = FetchError reason)
   \/ (exists res2, step = Answer res2 /\ json res2 = None
                    /\ e = FetchError "invalid-json")
   \/ (exists res2, step = Answer res2 /\ json res2 = Some JNull /\ e = TypeError)) ->
  runs (login self) w (Rejected e) (mkSession token (account (session w)))
       [loginRequest self; clientInfoRequest token] rest.
Proof.
  intros Ha Hl Ht Hstep.
  assert (JS.field "JSESSIONID" (parseCookies (setCookieOrEmpty res1)) = token) as Hf
      by (unfold JS.field; rewrite Hl; reflexivity).
  unfold runs; rewrite (login_profile_step res1 (step :: rest) token Ha Hf Ht).
  destruct Hstep as [(reason & -> & ->)|[(res2 & -> & Hj & ->)|(res2 & -> & Hj & ->)]];
    simpl; try rewrite Hj; simpl; auto.
Qed.

(** X7. A profile without the [intAccount] field does not make [login]
    fail: it resolves, and the account of the session is [undefined] from
    then on, whatever it was. *)
Theorem login_profile_without_account (res1 res2 : Response) (rest : list FetchResult)
        (token : JSValue) (profile : list (string * JSValue)) :
  answers w = Answer res1 :: Answer res2 :: rest ->
  JS.lookup "JSESSIONID" (parseCookies (setCookieOrEmpty res1)) = Some token ->
  JS.truthy token = true ->
  json res2 = Some (JObj profile) ->
  JS.lookup "intAccount" profile = None ->
  runs (login self) w (Resolved (mkSession token JUndefined)) (mkSession token JUndefined)
       [loginRequest self; clientInfoRequest token] rest.
Proof.
  intros Ha Hl Ht Hj Hi.
  assert (JS.field "JSESSIONID" (parseCookies (setCookieOrEmpty res1)) = token) as Hf
      by (unfold JS.field; rewrite Hl; reflexivity).
  unfold runs; rewrite (login_profile_step res1 (Answer res2 :: rest) token Ha Hf Ht).
  simpl; rewrite Hj; simpl; unfold JS.field; rewrite Hi; simpl; auto.
Qed.

(** X9. The profile request asks for the token that the login response
    has just set, not for the one the session held; and the login request
    is the same whatever the session holds. *)
Theorem login_requests (res1 : Response) (script : list FetchResult) (token : JSValue) :
  answers w = Answer res1 :: script ->
  JS.lookup "JSESSIONID" (parseCookies (setCookieOrEmpty res1)) = Some token ->
  JS.truthy token = true ->
  sent (snd (login self w))
  = (sent w ++ [loginRequest self;
                getRequest ("https://trader.degiro.nl/pa/secure/client?sessionId="
                            ++ JS.ToString token)])%list
  /\ id (session (snd (login self w))) = token.
Proof.
  intros Ha Hl Ht.
  assert (JS.field "JSESSIONID" (parseCookies (setCookieOrEmpty res1)) = token) as Hf
      by (unfold JS.field; rewrite Hl; reflexivity).
  rewrite (login_profile_step res1 script token Ha Hf Ht).
  destruct (received script) as [profile|e|]; simpl; auto.
  destruct (JS.get profile "intAccount"); simpl; auto.
Qed.

End LoginSteps.

(** X5. What [login] writes to the console does not depend on the
    password: two clients that differ in the password only leave the same
    console and end alike. *)
Theorem login_log_hides_password {lib : Collaborators}
        (user password1 password2 debugging : JSValue) (s0 : Session) (w : World) :
  console (snd (login (mkClient user password1 debugging s0) w))
  = console (snd (login (mkClient user password2 debugging s0) w))
  /\ fst (login (mkClient user password1 debugging s0) w)
     = fst (login (mkClient user password2 debugging s0) w).
Proof.
  unfold login, updateClientInfo.
  unfold andThen, log, written, getSession, setSession, fetchGet, fetch, resJson; simpl.
  destruct (answers w) as [|[res1|reason] script]; simpl; auto.
  destruct (negb (JS.truthy (JS.field "JSESSIONID" (parseCookies (setCookieOrEmpty res1)))));
    simpl; auto.
  destruct script as [|[res2|reason] rest]; simpl; auto.
  destruct (json res2) as [profile|]; simpl; auto.
  destruct (JS.get profile "intAccount"); simpl; auto.
Qed.

(** ** Reading the account *)

Section Reads.

Context {lib : Collaborators}.
Variable self : Client.
Variable w : World.

Lemma getData_runs (options : JSValue) :
  runs (getData self options) w (received (answers w)) (session w)
       [getRequest (updateUrl (session w) (Querystring.stringify (JS.orDefault options (JObj []))))]
       (tl (answers w)).
Proof.
  unfold runs, getData, received.
  unfold andThen, log, written, getSession, fetchGet, fetch, resJson; simpl.
  destruct (answers w) as [|[res|reason] rest]; simpl; auto.
  destruct (json res); simpl; auto.
Qed.

(** X2. [getData] applies no success check: whatever JSON the server
    answers, also a payload with a status other than 0, is what the promise
    is fulfilled with; a body that is not JSON rejects with node-fetch's
    [FetchError] of type [invalid-json].  One request is sent, with the
    options as its query (an array of options goes out under its indices),
    and a call without options is a call with empty options.  The session
    is one whose token and account can be printed into the address. *)
Theorem getData_passes_payload (options : JSValue) (res : Response)
        (rest : list FetchResult) :
  JS.printable (id (session w)) = true ->
  JS.printable (account (session w)) = true ->
  answers w = Answer res :: rest ->
  (forall payload, json res = Some payload ->
                   fst (getData self options w) = Resolved payload)
  /\ (json res = None ->
      fst (getData self options w) = Rejected (FetchError "invalid-json"))
  /\ sent (snd (getData self options w))
     = (sent w ++ [getRequest (updateUrl (session w) (Querystring.stringify
                                            (JS.orDefault options (JObj []))))])%list
  /\ answers (snd (getData self options w)) = rest
  /\ getData self JUndefined w = getData self (JObj []) w.
Proof.
  intros _ _ Ha; destruct (getData_runs options) as (Hout & _ & Hsent & Hrest).
  rewrite Ha in Hout, Hrest; simpl in Hout, Hrest.
  repeat split; auto.
  - intros payload Hj; rewrite Hj in Hout; exact Hout.
  - intros Hj; rewrite Hj in Hout; exact Hout.
Qed.



End Reads.

(** ** Creating a client *)

(** X3. [create] takes each of the user name, the password, the session
    id and the account from its options when the option is there, also
    when it is [null], and from the environment otherwise; [debug] is off
    unless asked for; no options at all are the empty options, and [null]
    for the options throws a [TypeError]. *)
Theorem create_defaults (env : list (string * JSValue)) :
  create env JUndefined = create env (JObj [])
  /\ create env JNull = Throw TypeError
  /\ forall fields,
      exists c,
        create env (JObj fields) = Normal c
        /\ (forall v, JS.lookup "sessionId" fields = Some v -> v <> JUndefined ->
                      id (initialSession c) = v)
        /\ (forall v, JS.lookup "account" fields = Some v -> v <> JUndefined ->
                      account (initialSession c) = v)
        /\ (forall v, JS.lookup "username" fields = Some v -> v <> JUndefined ->
                      username c = v)
        /\ (forall v, JS.lookup "password" fields = Some v -> v <> JUndefined ->
                      password c = v)
        /\ (JS.lookup "sessionId" fields = None ->
            id (initialSession c) = JS.field "DEGIRO_SID" env)
        /\ (JS.lookup "account" fields = None ->
            account (initialSession c) = JS.field "DEGIRO_ACCOUNT" env)
        /\ (JS.lookup "username" fields = None -> username c = JS.field "DEGIRO_USER" env)
        /\ (JS.lookup "password" fields = None -> password c = JS.field "DEGIRO_PASS" env)
        /\ (JS.lookup "debug" fields = None -> debug c = JBool false).
Proof.
  split; [reflexivity|]; split; [reflexivity|].
  intros fields; eexists; split; [reflexivity|]; simpl.
  assert (forall k v d, JS.lookup k fields = Some v -> v <> JUndefined ->
                        JS.orDefault (JS.field k fields) d = v) as Hsome.
  { intros k v d Hl Hv; unfold JS.field; rewrite Hl.
    destruct v; [destruct Hv; reflexivity | reflexivity ..]. }
  assert (forall k d, JS.lookup k fields = None -> JS.orDefault (JS.field k fields) d = d)
    as Hnone.
  { intros k d Hl; unfold JS.field; rewrite Hl; reflexivity. }
  repeat split; intros; auto.
Qed.

(** ** More on the search query *)

Section Query.

Context {lib : Collaborators} {constants : Constants}.
Variable fields : list (string * JSValue).

Let options : list (string * JSValue) :=
  [("searchText", JS.field "text" fields);
   ("productType", JS.orDefault (JS.field "productType" fields) ProductTypes_all);
   ("sortColumn", JS.field "sortColumn" fields);
   ("sortType", JS.field "sortType" fields);
   ("limit", JS.orDefault (JS.field "limit" fields) (JNum 7));
   ("offset", JS.orDefault (JS.field "offset" fields) (JNum 0))].

Let query : list (string * JSValue) := Lodash.omitBy options Lodash.isNil.

Lemma nil_option_omitted (name : string) :
  name <> EmptyString ->
  Lodash.isNil (JS.field name options) = true ->
  ~ In name (Querystring.names (Querystring.stringify (JObj query))).
Proof.
  intros Hname Hnil Hin.
  apply names_stringify in Hin as [->|(k & v & Hin & ->)]; [congruence|].
  apply (query_property fields) in Hin as [Hin Hv].
  apply (options_property fields) in Hin as [-> He]; rewrite He in Hnil.
  unfold options in Hnil; congruence.
Qed.

(** X16. An option passed as [null] is left out of the query like one
    that is not passed; for the product type, the limit and the offset the
    default is not put in its place. *)
Theorem null_option_omitted (params : string) :
  searchParams (JObj fields) = Normal params ->
  (JS.field "text" fields = JNull -> ~ In "searchText" (Querystring.names params))
  /\ (JS.field "productType" fields = JNull ->
      ~ In "productType" (Querystring.names params))
  /\ (JS.field "sortColumn" fields = JNull -> ~ In "sortColumn" (Querystring.names params))
  /\ (JS.field "sortType" fields = JNull -> ~ In "sortType" (Querystring.names params))
  /\ (JS.field "limit" fields = JNull -> ~ In "limit" (Querystring.names params))
  /\ (JS.field "offset" fields = JNull -> ~ In "offset" (Querystring.names params)).
Proof.
  intros Hp; injection Hp as <-.
  repeat split; intros H; apply nil_option_omitted; try discriminate.
  - change (JS.field "searchText" options) with (JS.field "text" fields).
    rewrite H; reflexivity.
  - change (JS.field "productType" options)
      with (JS.orDefault (JS.field "productType" fields) ProductTypes_all).
    rewrite H; reflexivity.
  - change (JS.field "sortColumn" options) with (JS.field "sortColumn" fields).
    rewrite H; reflexivity.
  - change (JS.field "sortType" options) with (JS.field "sortType" fields).
    rewrite H; reflexivity.
  - change (JS.field "limit" options) with (JS.orDefault (JS.field "limit" fields) (JNum 7)).
    rewrite H; reflexivity.
  - change (JS.field "offset" options)
      with (JS.orDefault (JS.field "offset" fields) (JNum 0)).
    rewrite H; reflexivity.
Qed.

(** X17. A search text that is a string is the first parameter of the
    query, under the name [searchText] and percent-encoded. *)
Theorem search_text_parameter (text params : string) :
  JS.field "text" fields = JStr text ->
  searchParams (JObj fields) = Normal params ->
  exists others,
    Querystring.parameters params = ("searchText=" ++ Querystring.escape text) :: others.
Proof.
  intros Ht Hp.
  assert (Normal params = Normal (Querystring.stringify (JObj query))) as Hq
      by (rewrite <- Hp; reflexivity).
  injection Hq as ->.
  assert (exists rest, query = ("searchText", JStr text) :: rest) as [rest ->].
  { unfold query, options, Lodash.omitBy; simpl filter; rewrite Ht; simpl; eauto. }
  exists (flat_map Querystring.pairsOf rest).
  exact (parameters_stringify (("searchText", JStr text) :: rest) ltac:(discriminate)).
Qed.

(** X18. Whatever the options hold, the query has no parameter under a
    name other than the six option names (or the empty name, when all six
    are left out): the text cannot add a parameter of its own. *)
Theorem search_parameter_names (params name : string) :
  searchParams (JObj fields) = Normal params ->
  In name (Querystring.names params) ->
  In name ["searchText"; "productType"; "sortColumn"; "sortType"; "limit"; "offset";
           EmptyString].
Proof.
  intros Hp Hin; injection Hp as <-.
  apply names_stringify in Hin as [->|(k & v & Hin & ->)]; [simpl; auto 10|].
  apply (query_property fields) in Hin as [Hin _].
  pose proof (options_property fields k v Hin) as [_ ->].
  simpl in Hin.
  repeat (destruct Hin as [Hin|Hin]; [injection Hin as <- _; simpl; auto 10|]).
  destruct Hin.
Qed.

End Query.

(** ** More on the cash funds *)

Lemma lookup_assign_same (k : string) (v : JSValue) (fields : list (string * JSValue)) :
  JS.lookup k (JS.assign k v fields) = Some v.
Proof.
  induction fields as [|[k' v'] fields IH]; simpl.
  - rewrite String.eqb_refl; reflexivity.
  - destruct (String.eqb k k') eqn:Hk; simpl; rewrite Hk; [reflexivity | exact IH].
Qed.

Lemma lookup_assign_other (k k' : string) (v : JSValue) (fields : list (string * JSValue)) :
  k <> k' -> JS.lookup k (JS.assign k' v fields) = JS.lookup k fields.
Proof.
  intros Hne; induction fields as [|[k2 v2] fields IH]; simpl.
  - destruct (String.eqb_spec k k'); [contradiction | reflexivity].
  - destruct (String.eqb_spec k' k2) as [<-|Hk2]; simpl.
    + destruct (String.eqb_spec k k'); [contradiction | reflexivity].
    + rewrite IH; reflexivity.
Qed.

Lemma fromPairs_snoc (pairs : list (JSValue * JSValue)) (pair : JSValue * JSValue) :
  Lodash.fromPairs (pairs ++ [pair])%list
  = (let? fields := Lodash.fromPairs pairs in
     let? key := JS.toText (fst pair) in
     Normal (JS.assign key (snd pair) fields)).
Proof. unfold Lodash.fromPairs; rewrite fold_left_app; reflexivity. Qed.

(** What [fromPairs] has bound when the last pair is in. *)
Lemma fromPairs_last (pairs : list (JSValue * JSValue)) (pair : JSValue * JSValue)
      (fields : list (string * JSValue)) :
  Lodash.fromPairs (pairs ++ [pair])%list = Normal fields ->
  exists before,
    Lodash.fromPairs pairs = Normal before
    /\ JS.toText (fst pair) = Normal (JS.ToString (fst pair))
    /\ fields = JS.assign (JS.ToString (fst pair)) (snd pair) before.
Proof.
  rewrite fromPairs_snoc.
  destruct (Lodash.fromPairs pairs) as [before|]; simpl; [|discriminate].
  destruct (JS.toText (fst pair)) as [key|] eqn:Hk; simpl; [|discriminate].
  intros H; injection H as <-.
  rewrite (toText_ToString _ _ Hk); eauto.
Qed.

Lemma fromPairs_throws (pairs : list (JSValue * JSValue)) (e : JSError) :
  Lodash.fromPairs pairs = Throw e -> e = TypeError.
Proof.
  induction pairs as [|pair pairs IH] using rev_ind; [discriminate|].
  rewrite fromPairs_snoc.
  destruct (Lodash.fromPairs pairs) as [before|e']; simpl.
  - destruct (JS.toText (fst pair)) as [key|e''] eqn:Hk; simpl; [discriminate|].
    intros H; injection H as <-; exact (toText_throws _ _ Hk).
  - intros H; injection H as <-; exact (IH eq_refl).
Qed.

(** [fromPairs] returns only when it could convert every key. *)
Lemma fromPairs_prints (front back : list (JSValue * JSValue)) (name v : JSValue)
      (fields : list (string * JSValue)) :
  Lodash.fromPairs (front ++ (name, v) :: back)%list = Normal fields ->
  JS.toText name = Normal (JS.ToString name).
Proof.
  revert fields; induction back as [|pair back IH] using rev_ind; intros fields Hf.
  - apply fromPairs_last in Hf as (before & _ & Hk & _); exact Hk.
  - change (front ++ (name, v) :: back ++ [pair])%list
      with (front ++ ((name, v) :: back) ++ [pair])%list in Hf.
    rewrite app_assoc in Hf.
    apply fromPairs_last in Hf as (before & Hb & _ & _); exact (IH before Hb).
Qed.

(** [fromPairs] keeps, for a key, the value of the last pair under it. *)
Lemma lookup_fromPairs_last (front back : list (JSValue * JSValue)) (name v : JSValue)
      (fields : list (string * JSValue)) :
  Lodash.fromPairs (front ++ (name, v) :: back)%list = Normal fields ->
  (forall pair, In pair back -> JS.ToString (fst pair) <> JS.ToString name) ->
  JS.lookup (JS.ToString name) fields = Some v.
Proof.
  revert fields; induction back as [|pair back IH] using rev_ind; intros fields Hf Hback.
  - apply fromPairs_last in Hf as (before & _ & _ & ->); apply lookup_assign_same.
  - change (front ++ (name, v) :: back ++ [pair])%list
      with (front ++ ((name, v) :: back) ++ [pair])%list in Hf.
    rewrite app_assoc in Hf.
    apply fromPairs_last in Hf as (before & Hb & _ & ->).
    rewrite lookup_assign_other.
    + apply (IH before Hb); intros p Hp; apply Hback, in_or_app; auto.
    + intros Heq; apply (Hback pair); [apply in_or_app; simpl; auto | congruence].
Qed.

(** [fromPairs] binds only what a pair gives. *)
Lemma lookup_fromPairs_source (pairs : list (JSValue * JSValue)) (k : string) (v : JSValue)
      (fields : list (string * JSValue)) :
  Lodash.fromPairs pairs = Normal fields ->
  JS.lookup k fields = Some v ->
  exists name, In (name, v) pairs /\ JS.ToString name = k.
Proof.
  revert fields; induction pairs as [|[name v'] pairs IH] using rev_ind; intros fields Hf.
  - injection Hf as <-; discriminate.
  - apply fromPairs_last in Hf as (before & Hb & _ & ->); simpl fst; simpl snd; intros H.
    destruct (String.eqb_spec k (JS.ToString name)) as [->|Hne].
    + rewrite lookup_assign_same in H; injection H as ->.
      exists name; split; [apply in_or_app; simpl; auto | reflexivity].
    + rewrite (lookup_assign_other _ _ _ _ Hne) in H.
      destruct (IH before Hb H) as (n & Hin & Hn).
      exists n; split; [apply in_or_app; auto | exact Hn].
Qed.

Lemma lookup_omit (k : string) (paths : list string) (fields : list (string * JSValue)) :
  JS.lookup k (Lodash.omit fields paths)
  = if existsb (String.eqb k) paths then None else JS.lookup k fields.
Proof.
  induction fields as [|[k' v] fields IH]; simpl.
  - destruct (existsb (String.eqb k) paths); reflexivity.
  - destruct (String.eqb_spec k k') as [<-|Hne].
    + destruct (existsb (String.eqb k) paths) eqn:Hex; simpl.
      * exact IH.
      * rewrite String.eqb_refl; reflexivity.
    + destruct (existsb (String.eqb k') paths); simpl; [exact IH|].
      destruct (String.eqb_spec k k'); [contradiction | exact IH].
Qed.

Lemma mapM_app {A B} (f : A -> Completion B) (l1 l2 : list A) (ys : list B) :
  JS.mapM f (l1 ++ l2)%list = Normal ys ->
  exists ys1 ys2,
    ys = (ys1 ++ ys2)%list /\ JS.mapM f l1 = Normal ys1 /\ JS.mapM f l2 = Normal ys2.
Proof.
  revert ys; induction l1 as [|x l1 IH]; simpl; intros ys H.
  - exists [], ys; auto.
  - destruct (f x) as [y|]; simpl in *; [|discriminate].
    destruct (JS.mapM f (l1 ++ l2)%list) as [ys'|] eqn:Hm; simpl in H; [|discriminate].
    injection H as <-.
    destruct (IH ys' eq_refl) as (ys1 & ys2 & -> & -> & H2).
    exists (y :: ys1), ys2; auto.
Qed.

Lemma mapM_map {A B} (f : A -> Completion B) (g : A -> B) (l : list A) (ys : list B) :
  (forall x y, f x = Normal y -> y = g x) ->
  JS.mapM f l = Normal ys -> ys = map g l.
Proof.
  intros Hf; revert ys; induction l as [|x l IH]; simpl; intros ys H.
  - congruence.
  - destruct (f x) as [y|] eqn:Hx; simpl in H; [|discriminate].
    destruct (JS.mapM f l) as [ys'|]; simpl in H; [|discriminate].
    injection H as <-; rewrite (Hf x y Hx), (IH ys' eq_refl); reflexivity.
Qed.

Lemma mapM_length {A B} (f : A -> Completion B) (l : list A) (ys : list B) :
  JS.mapM f l = Normal ys -> length ys = length l.
Proof.
  revert ys; induction l as [|x l IH]; simpl; intros ys H.
  - injection H as <-; reflexivity.
  - destruct (f x) as [y|]; simpl in H; [|discriminate].
    destruct (JS.mapM f l) as [ys'|]; simpl in H; [|discriminate].
    injection H as <-; simpl; rewrite (IH ys' eq_refl); reflexivity.
Qed.

Lemma mapM_throws {A B} (f : A -> Completion B) (l : list A) (x : A) (e : JSError) :
  In x l ->
  f x = Throw e ->
  (forall x' e', f x' = Throw e' -> e' = e) ->
  JS.mapM f l = Throw e.
Proof.
  intros Hin Hx Hall; induction l as [|x' l IH]; [destruct Hin|]; simpl.
  destruct (f x') as [y|e'] eqn:Hx'; simpl.
  - destruct Hin as [->|Hin]; [congruence|].
    rewrite (IH Hin); reflexivity.
  - rewrite (Hall x' e' Hx'); reflexivity.
Qed.


Lemma mapM_In {A B} (f : A -> Completion B) (l : list A) (ys : list B) (y : B) :
  JS.mapM f l = Normal ys -> In y ys -> exists x, In x l /\ f x = Normal y.
Proof.
  revert ys; induction l as [|x l IH]; simpl; intros ys H Hin.
  - injection H as <-; destruct Hin.
  - destruct (f x) as [y'|] eqn:Hx; simpl in H; [|discriminate].
    destruct (JS.mapM f l) as [ys'|]; simpl in H; [|discriminate].
    injection H as <-; destruct Hin as [->|Hin]; [eauto|].
    destruct (IH ys' eq_refl Hin) as (x' & Hx' & Hy); eauto.
Qed.

Lemma mapM_total {A B} (f : A -> Completion B) (l : list A) (ys : list B) :
  JS.mapM f l = Normal ys -> forall x, In x l -> exists y, f x = Normal y.
Proof.
  revert ys; induction l as [|x' l IH]; simpl; intros ys H x Hin; [destruct Hin|].
  destruct (f x') as [y'|] eqn:Hx; simpl in H; [|discriminate].
  destruct (JS.mapM f l) as [ys'|]; simpl in H; [|discriminate].
  destruct Hin as [<-|Hin]; eauto.
Qed.

Lemma mapM_fails {A B} (f : A -> Completion B) (l : list A) (e : JSError) :
  JS.mapM f l = Throw e -> exists x, In x l /\ f x = Throw e.
Proof.
  induction l as [|x l IH]; simpl; [discriminate|].
  destruct (f x) as [y|e'] eqn:Hx; simpl.
  - destruct (JS.mapM f l) as [ys|e'']; simpl; [discriminate|].
    intros H; injection H as ->; destruct (IH eq_refl) as (x' & Hin & Hx'); eauto.
  - intros H; injection H as ->; eauto.
Qed.

Lemma get_throws (v : JSValue) (k : string) (e : JSError) :
  JS.get v k = Throw e -> e = TypeError.
Proof. destruct v; simpl; congruence. Qed.

Section CashFundsEntries.

Context {lib : Collaborators}.

(** [({name, value}) => [name, value]] *)
Let pairOf (pair : JSValue) : Completion (JSValue * JSValue) :=
  let? name := JS.get pair "name" in
  let? value := JS.get pair "value" in
  Normal (name, value).

Lemma pairOf_normal (item name v : JSValue) :
  pairOf item = Normal (name, v) <->
  JS.get item "name" = Normal name /\ JS.get item "value" = Normal v.
Proof.
  unfold pairOf; split.
  - destruct (JS.get item "name") as [n|]; simpl; [|discriminate].
    destruct (JS.get item "value") as [x|]; simpl; [|discriminate].
    intros H; injection H as -> ->; auto.
  - intros [-> ->]; reflexivity.
Qed.

Lemma cashFundsEntry_pairs (entry : JSValue) (items : list JSValue)
      (fields : list (string * JSValue)) :
  JS.get entry "value" = Normal (JArr items) ->
  cashFundsEntry entry = Normal (JObj fields) ->
  exists pairs bound,
    JS.mapM pairOf items = Normal pairs
    /\ Lodash.fromPairs pairs = Normal bound
    /\ fields = Lodash.omit bound ["handling"; "currencyCode"].
Proof.
  unfold cashFundsEntry; intros -> H; simpl in H.
  fold pairOf in H.
  destruct (JS.mapM pairOf items) as [pairs|]; simpl in H; [|discriminate].
  destruct (Lodash.fromPairs pairs) as [bound|] eqn:Hb; simpl in H; [|discriminate].
  injection H as <-; eauto.
Qed.

(** X19. An entry of the cash funds is the mapping its list of name/value
    items spells out, when no item is named [__proto__] (a name that, as a
    key, reaches the prototype of the object being filled and not a field
    of it): a name other than [handling] and [currencyCode] is bound to the
    value of the last item under that name, and every binding of the entry
    comes from an item.  (An entry is built only when the name of every
    item can be turned into a key.) *)
Theorem cash_funds_entry_fields (entry : JSValue) (items : list JSValue)
        (fields : list (string * JSValue)) :
  JS.get entry "value" = Normal (JArr items) ->
  cashFundsEntry entry = Normal (JObj fields) ->
  (forall item name, In item items -> JS.get item "name" = Normal name ->
                     JS.ToString name <> "__proto__") ->
  (forall front item back name v,
      items = (front ++ item :: back)%list ->
      JS.get item "name" = Normal name ->
      JS.get item "value" = Normal v ->
      JS.ToString name <> "handling" ->
      JS.ToString name <> "currencyCode" ->
      (forall later n, In later back -> JS.get later "name" = Normal n ->
                       JS.ToString n <> JS.ToString name) ->
      JS.lookup (JS.ToString name) fields = Some v)
  /\ (forall k v,
         JS.lookup k fields = Some v ->
         exists item name,
           In item items
           /\ JS.get item "name" = Normal name
           /\ JS.toText name = Normal k
           /\ k <> "__proto__"
           /\ JS.get item "value" = Normal v)
  /\ (forall item name, In item items -> JS.get item "name" = Normal name ->
                        JS.printable name = true).
Proof.
  intros Hv He Hproto.
  destruct (cashFundsEntry_pairs entry items fields Hv He) as (pairs & bound & Hm & Hb & ->).
  assert (forall item name, In item items -> JS.get item "name" = Normal name ->
                            JS.toText name = Normal (JS.ToString name)) as Hprints.
  { intros item name Hin Hn.
    destruct (JS.get item "value") as [v|] eqn:Hval.
    - apply in_split in Hin as (front & back & ->).
      apply mapM_app in Hm as (p1 & p2 & -> & _ & H2).
      simpl in H2.
      rewrite (proj2 (pairOf_normal item name v) (conj Hn Hval)) in H2; simpl in H2.
      destruct (JS.mapM pairOf back) as [p3|]; simpl in H2; [|discriminate].
      injection H2 as <-.
      exact (fromPairs_prints _ _ _ _ _ Hb).
    - destruct (mapM_total _ _ _ Hm item Hin) as ([n x] & Hp).
      apply pairOf_normal in Hp as [_ Hx]; congruence. }
  split; [|split].
  - intros front item back name v -> Hn Hval Hh Hc Hlast.
    apply mapM_app in Hm as (p1 & p2 & -> & _ & H2).
    simpl in H2.
    rewrite (proj2 (pairOf_normal item name v) (conj Hn Hval)) in H2; simpl in H2.
    destruct (JS.mapM pairOf back) as [p3|] eqn:H3; simpl in H2; [|discriminate].
    injection H2 as <-.
    rewrite lookup_omit; simpl.
    destruct (String.eqb_spec (JS.ToString name) "handling"); [contradiction|].
    destruct (String.eqb_spec (JS.ToString name) "currencyCode"); [contradiction|].
    simpl; apply (lookup_fromPairs_last _ _ _ _ _ Hb).
    intros [name' x] Hin; simpl.
    destruct (mapM_In _ _ _ _ H3 Hin) as (later & Hlater & Hp).
    apply pairOf_normal in Hp as [Hname _]; exact (Hlast later name' Hlater Hname).
  - intros k v Hl; rewrite lookup_omit in Hl.
    destruct (existsb (String.eqb k) ["handling"; "currencyCode"]); [discriminate|].
    apply (lookup_fromPairs_source _ _ _ _ Hb) in Hl as (name & Hin & Hk).
    destruct (mapM_In _ _ _ _ Hm Hin) as (item & Hitem & Hp).
    apply pairOf_normal in Hp as [Hname Hval].
    exists item, name; repeat split; auto.
    + rewrite <- Hk; exact (Hprints item name Hitem Hname).
    + rewrite <- Hk; exact (Hproto item name Hitem Hname).
  - intros item name Hin Hn; unfold JS.printable.
    rewrite (Hprints item name Hin Hn); reflexivity.
Qed.

Lemma pairOf_throws (item : JSValue) (e : JSError) :
  pairOf item = Throw e -> e = TypeError.
Proof.
  unfold pairOf.
  destruct (JS.get item "name") as [name|e1] eqn:Hn; simpl.
  - destruct (JS.get item "value") as [value|e2] eqn:Hv; simpl; [discriminate|].
    intros H; injection H as <-; exact (get_throws _ _ _ Hv).
  - intros H; injection H as <-; exact (get_throws _ _ _ Hn).
Qed.

(** Whatever goes wrong inside an entry is a [TypeError]. *)
Lemma cashFundsEntry_throws (entry : JSValue) (e : JSError) :
  cashFundsEntry entry = Throw e -> e = TypeError.
Proof.
  unfold cashFundsEntry; fold pairOf.
  destruct (JS.get entry "value") as [value|e1] eqn:Hv; simpl.
  - destruct (JS.arrayMap value pairOf) as [pairs|e2] eqn:Hm; simpl.
    + destruct (Lodash.fromPairs pairs) as [bound|e3] eqn:Hb; simpl; [discriminate|].
      intros H; injection H as <-; exact (fromPairs_throws _ _ Hb).
    + intros H; injection H as <-.
      destruct value; simpl in Hm; try (injection Hm as <-; reflexivity).
      apply mapM_fails in Hm as (item & _ & Hitem); exact (pairOf_throws _ _ Hitem).
  - intros H; injection H as <-; exact (get_throws _ _ _ Hv).
Qed.

Variable self : Client.
Variable w : World.

(** X20. [getCashFunds] gives one entry for each element of
    [cashFunds.value], in order; and a malformed element ([null], or one
    whose [value] is not an array) makes it reject with a [TypeError], not
    with the bad-result error. *)
Theorem cash_funds_entries (res : Response) (rest : list FetchResult)
        (data cashFunds : JSValue) (items : list JSValue) :
  answers w = Answer res :: rest ->
  json res = Some data ->
  JS.get data "cashFunds" = Normal cashFunds ->
  JS.get cashFunds "value" = Normal (JArr items) ->
  (forall out,
      fst (getCashFunds self w) = Resolved out ->
      exists entries,
        out = JObj [("cashFunds", JArr entries)]
        /\ JS.mapM cashFundsEntry items = Normal entries
        /\ length entries = length items)
  /\ (forall item,
         In item items ->
         item = JNull
         \/ (exists value, JS.get item "value" = Normal value /\ JS.isArray value = false) ->
         fst (getCashFunds self w) = Rejected TypeError).
Proof.
  intros Ha Hj Hc Hv.
  destruct (getCashFunds_runs self w) as (Hout & _).
  rewrite Ha, (received_answer _ _ _ Hj) in Hout; simpl in Hout.
  rewrite Hout; clear Hout.
  assert (JS.truthy cashFunds = true) as Ht.
  { destruct cashFunds; simpl in Hv; try discriminate; reflexivity. }
  unfold cashFundsOf; rewrite Hc; simpl; rewrite Ht, Hv; simpl.
  split.
  - intros out H.
    destruct (JS.mapM cashFundsEntry items) as [entries|] eqn:Hm; simpl in H; [|discriminate].
    injection H as <-; exists entries; split; [reflexivity|]; split; [reflexivity|].
    exact (mapM_length _ _ _ Hm).
  - intros item Hin Hbad.
    assert (cashFundsEntry item = Throw TypeError) as Hitem.
    { destruct Hbad as [->|(value & Hval & Hn)]; [reflexivity|].
      unfold cashFundsEntry; rewrite Hval; simpl.
      destruct value; try discriminate; reflexivity. }
    rewrite (mapM_throws _ _ _ _ Hin Hitem); [reflexivity|].
    intros x' e'; apply cashFundsEntry_throws.
Qed.

End CashFundsEntries.

(** * The client at work

    Runs of the operations against Node's libraries, on the inputs of
    [Demo]. *)

Import Node.

Lemma login_sets_session_or_fails_witness :
  fst (login Demo.client
             (boot Demo.client [Answer Demo.loggedIn; Demo.reply Demo.profile]))
  = Resolved (mkSession (JStr "ABC123.prod") (JNum 4242))
  /\ account (session (snd (login Demo.client (boot Demo.client [Answer Demo.refused]))))
     = JNum 7.
Proof.
  split.
  - apply (proj1 (login_sets_session_or_fails (lib := Node.collaborators) Demo.client
                    (boot Demo.client [Answer Demo.loggedIn; Demo.reply Demo.profile]))
                 Demo.loggedIn (mkResponse None (Some Demo.profile)) []
                 (JStr "ABC123.prod") Demo.profile (JNum 4242)
                 eq_refl eq_refl eq_refl eq_refl eq_refl).
  - apply (proj2 (login_sets_session_or_fails (lib := Node.collaborators) Demo.client
                    (boot Demo.client [Answer Demo.refused]))
                 Demo.refused [] eq_refl eq_refl).
Defined.

(** A client created with a pre-seeded token loses it to a failed login. *)
Lemma failed_login_clobbers_token_witness :
  create [] (JObj [("sessionId", JStr "S0"); ("account", JNum 7);
                   ("username", JStr "trader"); ("password", JStr "secret")])
  = Normal Demo.client
  /\ id (initialSession Demo.client) = JStr "S0"
  /\ session (snd (login Demo.client (boot Demo.client [Answer Demo.refused])))
     = mkSession JUndefined (JNum 7).
Proof.
  split; [reflexivity|]; split; [reflexivity|].
  apply (failed_login_clobbers_token (lib := Node.collaborators) Demo.client
           (boot Demo.client [Answer Demo.refused]) Demo.refused [] eq_refl eq_refl).
Defined.






Lemma searchProduct_query_witness :
  searchParams (JObj [("text", JStr "AAPL"); ("limit", JNum 1)])
  = Normal "searchText=AAPL&productType=all&limit=1&offset=0"
  /\ ~ In "sortColumn"
        (Querystring.names "searchText=AAPL&productType=all&limit=1&offset=0")
  /\ ~ In "sortType"
        (Querystring.names "searchText=AAPL&productType=all&limit=1&offset=0")
  /\ In "productType=all"
        (Querystring.parameters "searchText=AAPL&productType=all&limit=1&offset=0")
  /\ In "offset=0"
        (Querystring.parameters "searchText=AAPL&productType=all&limit=1&offset=0")
  /\ map url (sent (snd (searchProduct Demo.client
                                       (JObj [("text", JStr "AAPL"); ("limit", JNum 1)])
                                       (boot Demo.client []))))
     = ["https://trader.degiro.nl/product_search/secure/v4/product/lookup?intAccount=7&sessionId=S0&searchText=AAPL&productType=all&limit=1&offset=0"].
Proof.
  destruct (searchProduct_query Demo.client [("text", JStr "AAPL"); ("limit", JNum 1)])
    as (options & query & params & _ & _ & Hp & Hsent & _ & _ & _ & Hcolumn & Htype
        & _ & _ & _ & _ & _ & Hoffset & Hall).
  rewrite (Hsent (boot Demo.client []) eq_refl eq_refl).
  injection Hp as <-.
  split; [reflexivity|].
  split; [exact (proj2 (Hcolumn eq_refl))|].
  split; [exact (proj2 (Htype eq_refl))|].
  split; [exact (Hall eq_refl "all" eq_refl)|].
  split; [exact (Hoffset eq_refl) | reflexivity].
Defined.

(** ** Sample runs *)

Example login_request :
  loginRequest Demo.client
  = mkRequest "https://trader.degiro.nl/login/securityCheck" POST
              [("Content-Type", "application/x-www-form-urlencoded")]
              (Some "j_username=trader&j_password=secret") "manual".
Proof. reflexivity. Qed.

Example escaped_credentials :
  Querystring.stringify (JObj [("j_username", JStr "a b&c"); ("j_password", JUndefined)])
  = "j_username=a%20b%26c&j_password=".
Proof. reflexivity. Qed.

Example buy_requests :
  map url (sent (snd (buy Demo.client (JObj Demo.order)
                          (boot Demo.client [Demo.reply Demo.found; Demo.reply Demo.checkOk;
                                             Demo.reply Demo.confirmOk]))))
  = ["https://trader.degiro.nl/product_search/secure/v4/product/lookup?intAccount=7&sessionId=S0&searchText=AAPL&productType=shares&limit=1&offset=0";
     "https://trader.degiro.nl/trading/secure/v5/checkOrder;jsessionid=S0?intAccount=7&sessionId=S0";
     "https://trader.degiro.nl/trading/secure/v5/order/C1;jsessionid=S0?intAccount=7&sessionId=S0"].
Proof. reflexivity. Qed.

Example sell_order_body :
  map body (sent (snd (sell Demo.client (JObj Demo.order)
                            (boot Demo.client [Demo.reply Demo.found]))))
  = [None;
     Some (Node.stringify
             (JObj [("buysell", JStr "sell"); ("orderType", JNum 0);
                    ("productId", JStr "X1"); ("size", JNum 10);
                    ("timeType", JStr "day"); ("price", JNum 150)]))].
Proof. reflexivity. Qed.

Example sorted_search :
  searchParams (JObj [("text", JStr "NFLX"); ("sortColumn", JStr "name");
                      ("sortType", JStr "asc"); ("limit", JNull)])
  = Normal "searchText=NFLX&productType=all&sortColumn=name&sortType=asc&offset=0".
Proof. reflexivity. Qed.

Example cash_funds_of_two_currencies :
  fst (getCashFunds Demo.client
         (boot Demo.client
               [Demo.reply
                  (JObj [("cashFunds",
                          JObj [("value",
                                 JArr [JObj [("value",
                                              JArr [JObj [("name", JStr "currencyCode");
                                                          ("value", JStr "EUR")];
                                                    JObj [("name", JStr "value");
                                                          ("value", JFrac "1234.56")]])];
                                       JObj [("value", JArr [])]])])])]))
  = Resolved (JObj [("cashFunds", JArr [JObj [("value", JFrac "1234.56")]; JObj []])]).
Proof. reflexivity. Qed.

Example login_with_an_empty_cookie :
  login Demo.client (boot Demo.client [Answer (mkResponse (Some "JSESSIONID=") None)])
  = (Rejected (Error "Login error"),
     mkWorld (mkSession (JStr EmptyString) (JNum 7)) [loginRequest Demo.client] [] []).
Proof. reflexivity. Qed.

Example unprintable_values :
  JS.toText (JObj [("toString", JNum 1)]) = Throw TypeError
  /\ JS.toText (JArr [JNum 1; JNull; JStr "a"]) = Normal "1,,a"
  /\ JS.toText (JArr [JStr "a"; JObj [("toString", JNull)]]) = Throw TypeError
  /\ JS.toText (JObj [("valueOf", JNum 1)]) = Normal "[object Object]".
Proof. repeat split. Qed.

Example array_of_options :
  Querystring.stringify (JArr [JStr "a"; JNum 2; JArr [JStr "b"; JStr "c"]])
  = "0=a&1=2&2=b&2=c".
Proof. reflexivity. Qed.

Example cookie_header :
  Node.parse " JSESSIONID = A%20B%2Eprod ; Path=/; toString=x; HttpOnly; JSESSIONID=late"
  = [("JSESSIONID", JStr "A B.prod"); ("Path", JStr "/"); ("JSESSIONID", JStr "late")]
  /\ JS.field "JSESSIONID"
              (Node.parse " JSESSIONID = A%20B%2Eprod ; Path=/; JSESSIONID=late")
     = JStr "A B.prod"
  /\ Node.parse "a=%E9; b=%C3%A9; c=100%" 
     = [("a", JStr "%E9"); ("b", JStr (String (ascii_of_nat 195)
                                              (String (ascii_of_nat 169) EmptyString)));
        ("c", JStr "100%")].
Proof. repeat split. Qed.

Example cash_funds_with_an_unprintable_name :
  cashFundsEntry (JObj [("value", JArr [JObj [("name", JObj [("toString", JNum 1)]);
                                              ("value", JNum 0)]])])
  = Throw TypeError.
Proof. reflexivity. Qed.

Example refused_without_a_message :
  checkSuccess (JObj [("status", JNum 2)]) = Throw (Error EmptyString)
  /\ checkSuccess (JObj [("status", JNum 2); ("message", JArr [JNum 4; JNum 2])])
     = Throw (Error "4,2")
  /\ checkSuccess (JObj [("status", JStr "0"); ("message", JStr "not the number 0")])
     = Throw (Error "not the number 0").
Proof. repeat split. Qed.

Example pending_search :
  fst (buy Demo.client (JObj Demo.order) (boot Demo.client [])) = Pending.
Proof. reflexivity. Qed.

(** ** Further runs *)


Lemma getData_passes_payload_witness :
  fst (getData Demo.client (JObj [("orders", JNum 0)])
               (boot Demo.client [Demo.reply Demo.checkFailed]))
  = Resolved Demo.checkFailed
  /\ fst (getData Demo.client (JObj [("orders", JNum 0)])
                  (boot Demo.client [Answer Demo.refused]))
     = Rejected (FetchError "invalid-json").
Proof.
  split.
  - exact (proj1 (getData_passes_payload Demo.client
                    (boot Demo.client [Demo.reply Demo.checkFailed])
                    (JObj [("orders", JNum 0)]) _ [] eq_refl eq_refl eq_refl)
                 Demo.checkFailed eq_refl).
  - exact (proj1 (proj2 (getData_passes_payload Demo.client
                    (boot Demo.client [Answer Demo.refused])
                    (JObj [("orders", JNum 0)]) _ [] eq_refl eq_refl eq_refl))
                 eq_refl).
Defined.

Lemma create_defaults_witness :
  exists c,
    create [("DEGIRO_USER", JStr "trader"); ("DEGIRO_SID", JStr "E0")]
           (JObj [("sessionId", JNull); ("account", JNum 7)]) = Normal c
    /\ id (initialSession c) = JNull
    /\ username c = JStr "trader".
Proof.
  destruct (proj2 (proj2 (create_defaults
                            [("DEGIRO_USER", JStr "trader"); ("DEGIRO_SID", JStr "E0")]))
                  [("sessionId", JNull); ("account", JNum 7)])
    as (c & Hc & Hid & _ & _ & _ & _ & _ & Huser & _).
  exists c; split; [exact Hc|]; split.
  - apply (Hid JNull); [reflexivity | discriminate].
  - apply Huser; reflexivity.
Defined.

Lemma silent_without_debug_witness :
  console (snd (buy Demo.client (JObj Demo.order)
                    (boot Demo.client [Demo.reply Demo.found; Demo.reply Demo.checkOk;
                                       Demo.reply Demo.confirmOk])))
  = [].
Proof.
  destruct (silent_without_debug Demo.client (JObj Demo.order)
              (boot Demo.client [Demo.reply Demo.found; Demo.reply Demo.checkOk;
                                 Demo.reply Demo.confirmOk]) eq_refl)
    as (_ & _ & _ & _ & _ & Hbuy & _).
  exact Hbuy.
Defined.

Lemma login_profile_failure_witness :
  fst (login Demo.client (boot Demo.client [Answer Demo.loggedIn; Answer Demo.refused]))
  = Rejected (FetchError "invalid-json")
  /\ session (snd (login Demo.client
                         (boot Demo.client [Answer Demo.loggedIn; Answer Demo.refused])))
     = mkSession (JStr "ABC123.prod") (JNum 7).
Proof.
  destruct (login_profile_failure (lib := Node.collaborators) Demo.client
              (boot Demo.client [Answer Demo.loggedIn; Answer Demo.refused])
              Demo.loggedIn (Answer Demo.refused) [] (JStr "ABC123.prod")
              (FetchError "invalid-json") eq_refl eq_refl eq_refl
              (or_intror (or_introl
                 (ex_intro _ Demo.refused (conj eq_refl (conj eq_refl eq_refl))))))
    as (Hout & Hs & _).
  split; [exact Hout | exact Hs].
Defined.

Lemma login_profile_without_account_witness :
  session (snd (login Demo.client
                      (boot Demo.client [Answer Demo.loggedIn;
                                         Demo.reply (JObj [("id", JNum 1)])])))
  = mkSession (JStr "ABC123.prod") JUndefined.
Proof.
  destruct (login_profile_without_account (lib := Node.collaborators) Demo.client
              (boot Demo.client [Answer Demo.loggedIn; Demo.reply (JObj [("id", JNum 1)])])
              Demo.loggedIn _ [] (JStr "ABC123.prod") [("id", JNum 1)]
              eq_refl eq_refl eq_refl eq_refl eq_refl)
    as (_ & Hs & _).
  exact Hs.
Defined.

Lemma login_without_response_witness :
  session (snd (login Demo.client (boot Demo.client [Failure "ENOTFOUND"])))
  = mkSession (JStr "S0") (JNum 7)
  /\ fst (login Demo.client (boot Demo.client [])) = Pending.
Proof.
  split.
  - destruct (proj1 (login_without_response (lib := Node.collaborators) Demo.client
                       (boot Demo.client [Failure "ENOTFOUND"]))
                    "ENOTFOUND" [] eq_refl) as (_ & Hs & _).
    exact Hs.
  - destruct (proj2 (login_without_response (lib := Node.collaborators) Demo.client (boot Demo.client [])) eq_refl)
      as (Hout & _).
    exact Hout.
Defined.

Lemma login_requests_witness :
  map url (sent (snd (login Demo.client
                            (boot Demo.client [Answer Demo.loggedIn;
                                               Demo.reply Demo.profile]))))
  = ["https://trader.degiro.nl/login/securityCheck";
     "https://trader.degiro.nl/pa/secure/client?sessionId=ABC123.prod"].
Proof.
  destruct (login_requests (lib := Node.collaborators) Demo.client
              (boot Demo.client [Answer Demo.loggedIn; Demo.reply Demo.profile])
              Demo.loggedIn [Demo.reply Demo.profile] (JStr "ABC123.prod")
              eq_refl eq_refl eq_refl) as (Hsent & _).
  rewrite Hsent; reflexivity.
Defined.

Lemma order_requests_in_sequence_witness :
  (length (sent (snd (buy Demo.client (JObj Demo.order)
                          (boot Demo.client [Demo.reply Demo.found;
                                             Demo.reply Demo.checkFailed])))) <= 3)%nat.
Proof.
  destruct (proj1 (order_requests_in_sequence Demo.client Demo.order
                     (boot Demo.client [Demo.reply Demo.found;
                                        Demo.reply Demo.checkFailed])
                     eq_refl eq_refl))
    as (params & n & productId & confirmationId & _ & _ & Hsent & _).
  rewrite Hsent, length_app, length_firstn; simpl; lia.
Defined.

Lemma confirm_follows_accepted_check_witness :
  exists res1 res2 rest check,
    [Demo.reply Demo.found; Demo.reply Demo.checkOk; Demo.reply Demo.confirmOk]
    = Answer res1 :: Answer res2 :: rest
    /\ json res2 = Some check
    /\ JS.get check "status" = Normal (JNum 0).
Proof.
  apply (confirm_follows_accepted_check Demo.client Demo.order
           (boot Demo.client [Demo.reply Demo.found; Demo.reply Demo.checkOk;
                              Demo.reply Demo.confirmOk])).
  left; vm_compute; lia.
Defined.

Lemma confirm_refused_witness :
  fst (sell Demo.client (JObj Demo.order)
            (boot Demo.client [Demo.reply Demo.found; Demo.reply Demo.checkOk;
                               Demo.reply (JObj [("status", JNum 3);
                                                 ("message", JStr "market closed")])]))
  = Rejected (Error "market closed").
Proof.
  destruct (confirm_refused Demo.client Demo.order
              (boot Demo.client [Demo.reply Demo.found; Demo.reply Demo.checkOk;
                                 Demo.reply (JObj [("status", JNum 3);
                                                   ("message", JStr "market closed")])])
              _ _ _ [] Demo.found (JObj [("id", JStr "X1"); ("symbol", JStr "AAPL")])
              (JStr "X1") Demo.checkOk (JStr "C1")
              (JObj [("status", JNum 3); ("message", JStr "market closed")]) (JNum 3)
              [] "market closed"
              eq_refl eq_refl eq_refl eq_refl eq_refl eq_refl eq_refl eq_refl eq_refl eq_refl
              eq_refl eq_refl ltac:(discriminate) eq_refl)
    as (params & _ & _ & (Hout & _)).
  exact Hout.
Defined.



Lemma null_option_omitted_witness :
  searchParams (JObj [("text", JStr "NFLX"); ("limit", JNull)])
  = Normal "searchText=NFLX&productType=all&offset=0"
  /\ ~ In "limit" (Querystring.names "searchText=NFLX&productType=all&offset=0").
Proof.
  split; [reflexivity|].
  exact (proj1 (proj2 (proj2 (proj2 (proj2
           (null_option_omitted [("text", JStr "NFLX"); ("limit", JNull)]
                                "searchText=NFLX&productType=all&offset=0" eq_refl)))))
               eq_refl).
Defined.

Lemma search_text_parameter_witness :
  exists others,
    Querystring.parameters "searchText=AT%26T%20Inc&productType=all&limit=7&offset=0"
    = "searchText=AT%26T%20Inc" :: others.
Proof.
  exact (search_text_parameter [("text", JStr "AT&T Inc")] "AT&T Inc"
           "searchText=AT%26T%20Inc&productType=all&limit=7&offset=0" eq_refl eq_refl).
Defined.

Lemma search_parameter_names_witness :
  In "offset" ["searchText"; "productType"; "sortColumn"; "sortType"; "limit"; "offset";
               EmptyString].
Proof.
  apply (search_parameter_names (constants := Node.constants) [("text", JStr "a&sortColumn=b")]
           "searchText=a%26sortColumn%3Db&productType=all&limit=7&offset=0" "offset"
           eq_refl).
  vm_compute; auto 10.
Defined.

Lemma cash_funds_entry_fields_witness :
  JS.lookup "value"
            [("value", JFrac "12.5")]
  = Some (JFrac "12.5").
Proof.
  exact (proj1 (cash_funds_entry_fields
                  (JObj [("value",
                          JArr [JObj [("name", JStr "value"); ("value", JNum 0)];
                                JObj [("name", JStr "value"); ("value", JFrac "12.5")];
                                JObj [("name", JStr "handling"); ("value", JNum 1)]])])
                  [JObj [("name", JStr "value"); ("value", JNum 0)];
                   JObj [("name", JStr "value"); ("value", JFrac "12.5")];
                   JObj [("name", JStr "handling"); ("value", JNum 1)]]
                  [("value", JFrac "12.5")] eq_refl eq_refl
                  ltac:(intros item name [<-|[<-|[<-|[]]]] H; injection H as <-;
                        discriminate))
               [JObj [("name", JStr "value"); ("value", JNum 0)]]
               (JObj [("name", JStr "value"); ("value", JFrac "12.5")])
               [JObj [("name", JStr "handling"); ("value", JNum 1)]]
               (JStr "value") (JFrac "12.5") eq_refl eq_refl eq_refl
               ltac:(discriminate) ltac:(discriminate)
               ltac:(intros later n [<-|[]] H; injection H as <-; discriminate)).
Defined.

Lemma cash_funds_entries_witness :
  fst (getCashFunds Demo.client
         (boot Demo.client
               [Demo.reply (JObj [("cashFunds",
                                   JObj [("value", JArr [JObj [("value", JArr [])];
                                                         JNull])])])]))
  = Rejected TypeError.
Proof.
  exact (proj2 (cash_funds_entries Demo.client
                  (boot Demo.client
                        [Demo.reply (JObj [("cashFunds",
                                            JObj [("value",
                                                   JArr [JObj [("value", JArr [])];
                                                         JNull])])])])
                  _ [] _ (JObj [("value", JArr [JObj [("value", JArr [])]; JNull])])
                  [JObj [("value", JArr [])]; JNull] eq_refl eq_refl eq_refl eq_refl)
               JNull (or_intror (or_introl eq_refl)) (or_introl eq_refl)).
Defined.

Lemma outcome_ignores_session_witness :
  fst (buy Demo.client (JObj Demo.order)
           (mkWorld (mkSession JUndefined JUndefined) []
                    [Demo.reply Demo.found; Demo.reply Demo.checkOk;
                     Demo.reply Demo.confirmOk] []))
  = fst (buy Demo.client (JObj Demo.order)
             (boot Demo.client [Demo.reply Demo.found; Demo.reply Demo.checkOk;
                                Demo.reply Demo.confirmOk])).
Proof.
  destruct (outcome_ignores_session Demo.client (JObj Demo.order)
              (mkWorld (mkSession JUndefined JUndefined) []
                       [Demo.reply Demo.found; Demo.reply Demo.checkOk;
                        Demo.reply Demo.confirmOk] [])
              (boot Demo.client [Demo.reply Demo.found; Demo.reply Demo.checkOk;
                                 Demo.reply Demo.confirmOk])
              eq_refl eq_refl eq_refl eq_refl eq_refl)
    as (_ & _ & _ & _ & Hbuy & _).
  exact Hbuy.
Defined.
